(** * proxify: card content classification and border normalisation

    A shallow embedding of the per-card pipeline of [proxify.py]
    ([get_content_bounding_box], [get_content_extents_at_row],
    [check_strip_for_solid_lr_border], [determine_card_type] and
    [resize_card]) together with the parts of Python and of Pillow the
    pipeline relies on, followed by the properties its specification states.

    Conventions of the embedding
    - Python integers are [Z]; a Python float is the rational [Q] it
      denotes.  The quotients of the border back-projection are rounded to
      binary64 as Python rounds them ([Py.float]), the blend of the
      enhancers to C single precision ([PIL.single]); the configuration
      constants and the zone fractions are computed exactly.
    - A Pillow image is its size and its pixel access function; sizes are
      [N], so that every image has non-negative dimensions.
    - Exceptions are values of [Py.exc]; console output of [resize_card] is
      a list of [msg] threaded by the monad [M]. *)

From Stdlib Require Import ZArith QArith Qround Qabs Qpower List Bool String Lia Lqa.
Import ListNotations.
Local Open Scope Z_scope.

(** ** Python *)

Module Py.

Inductive exn : Set :=
| FileNotFoundError
| IndexError
| ValueError
| OtherError.

Inductive exc (A : Type) : Type :=
| Ret (a : A)
| Raise (e : exn).
Arguments Ret {A} a.
Arguments Raise {A} e.

Definition bind {A B : Type} (m : exc A) (k : A -> exc B) : exc B :=
  match m with
  | Ret a => k a
  | Raise e => Raise e
  end.

(** [range(n)], [range(a, b)] and [range(start, stop, -1)]. *)
Definition range (n : Z) : list Z := map Z.of_nat (seq 0 (Z.to_nat n)).
Definition range2 (a b : Z) : list Z := map (fun i => a + i) (range (b - a)).
Definition range_down (start stop : Z) : list Z :=
  map (fun i => start - i) (range (start - stop)).

(** [round(x)] on a float: nearest integer, ties to the even one. *)
Definition round (q : Q) : Z :=
  let f := Qfloor q in
  match Qcompare (q - inject_Z f) (1 # 2) with
  | Lt => f
  | Gt => f + 1
  | Eq => if Z.even f then f else f + 1
  end.

(** [int(x)] on a float: truncation towards zero. *)
Definition int (q : Q) : Z := Z.quot (Qnum q) (Zpos (Qden q)).

(** [floor(log2(q))] of a positive rational. *)
Definition ilog2 (q : Q) : Z :=
  let k := Z.log2 (Qnum q) - Z.log2 (Zpos (Qden q)) in
  if Qle_bool (2 ^ k) q then k else k - 1.

(** The binary floating-point number with [prec] significant bits nearest
    to [q], ties to the even significand (IEEE 754 round-to-nearest-even).
    The exponent range is not bounded: what lies beyond the largest
    binary64 number (where Python raises [OverflowError]) or below the
    smallest normal one is rounded like everything else. *)
Definition nearest_pos (prec : Z) (q : Q) : Q :=
  let e := ilog2 q - (prec - 1) in
  (inject_Z (round (q * 2 ^ (- e))) * 2 ^ e)%Q.

Definition nearest (prec : Z) (q : Q) : Q :=
  match Qnum q with
  | Z0 => 0%Q
  | Zpos _ => nearest_pos prec q
  | Zneg _ => (- nearest_pos prec (- q))%Q
  end.

(** The Python float nearest to [q]: the value of a literal, of [float(n)],
    and of the correctly rounded [a / b] when [q] is the exact quotient. *)
Definition float : Q -> Q := nearest 53.

(** A [for] loop whose body may [break]: [any_until f xs] runs [f] on the
    elements in order and stops at the first one that answers [true]. *)
Fixpoint any_until {A : Type} (f : A -> exc bool) (xs : list A) : exc bool :=
  match xs with
  | [] => Ret false
  | x :: xs' =>
      bind (f x) (fun hit => if hit then Ret true else any_until f xs')
  end.

(** The same loop, remembering the element it stopped at ([dflt] when it
    ran to the end). *)
Fixpoint first_hit (f : Z -> exc bool) (xs : list Z) (dflt : Z) : exc Z :=
  match xs with
  | [] => Ret dflt
  | x :: xs' =>
      bind (f x) (fun hit => if hit then Ret x else first_hit f xs' dflt)
  end.

(** A [for] loop that updates local variables [s]. *)
Fixpoint for_each {S : Type} (xs : list Z) (body : S -> Z -> exc S) (s : S)
  : exc S :=
  match xs with
  | [] => Ret s
  | x :: xs' => bind (body s x) (for_each xs' body)
  end.

End Py.

Import Py.

Declare Scope py_scope.
Delimit Scope py_scope with py.
Notation "x <- m ;; k" := (Py.bind m (fun x => k))
  (at level 61, m at next level, right associativity) : py_scope.
Notation "' p <- m ;; k" := (Py.bind m (fun x => match x with p => k end))
  (at level 61, p pattern, m at next level, right associativity) : py_scope.
Local Open Scope py_scope.

(** ** Pillow *)

Module PIL.

(** Pixels of mode [RGB] and [RGBA]. *)
Record rgb : Set := RGB { red : Z; green : Z; blue : Z }.
Record rgba : Set := RGBA { r_ : Z; g_ : Z; b_ : Z; a_ : Z }.

(** [pixel_tuple[:3]] and [convert("RGB")] on an RGBA pixel. *)
Definition first3 (p : rgba) : rgb := RGB (r_ p) (g_ p) (b_ p).

Definition box : Set := (Z * Z * Z * Z)%type.

Record image (P : Type) : Type :=
  Image { xsize : N; ysize : N; pixel : Z -> Z -> P }.
Arguments Image {P} xsize ysize pixel.
Arguments xsize {P} i.
Arguments ysize {P} i.
Arguments pixel {P} i x y.

Definition width {P} (im : image P) : Z := Z.of_N (xsize im).
Definition height {P} (im : image P) : Z := Z.of_N (ysize im).
Definition size {P} (im : image P) : Z * Z := (width im, height im).

Definition inside {P} (im : image P) (x y : Z) : bool :=
  (0 <=? x) && (x <? width im) && (0 <=? y) && (y <? height im).

(** [Image.new(mode, (w, h), color)]. *)
Definition new {P} (w h : Z) (color : P) : exc (image P) :=
  if (w <? 0) || (h <? 0) then Raise ValueError
  else Ret (Image (Z.to_N w) (Z.to_N h) (fun _ _ => color)).

(** [im.load()[x, y]]: negative indices count from the far edge, anything
    still outside raises [IndexError]. *)
Definition getitem {P} (im : image P) (x y : Z) : exc P :=
  let x := if x <? 0 then width im + x else x in
  let y := if y <? 0 then height im + y else y in
  if inside im x y then Ret (pixel im x y) else Raise IndexError.

(** [im.load()[x, y] = v]. *)
Definition setitem {P} (im : image P) (x y : Z) (v : P) : exc (image P) :=
  let x := if x <? 0 then width im + x else x in
  let y := if y <? 0 then height im + y else y in
  if inside im x y
  then Ret (Image (xsize im) (ysize im)
              (fun x' y' => if (x' =? x) && (y' =? y) then v else pixel im x' y'))
  else Raise IndexError.

Definition copy {P} (im : image P) : image P := im.

Definition convert_RGB (im : image rgba) : image rgb :=
  Image (xsize im) (ysize im) (fun x y => first3 (pixel im x y)).

Definition transparent : rgba := RGBA 0 0 0 0.

(** [im.crop((x0, y0, x1, y1))]: an inverted box is refused; the part of
    the box outside the image reads as transparent black. *)
Definition crop (im : image rgba) (bx : box) : exc (image rgba) :=
  let '(x0, y0, x1, y1) := bx in
  if (x1 <? x0) || (y1 <? y0) then Raise ValueError
  else Ret (Image (Z.to_N (x1 - x0)) (Z.to_N (y1 - y0))
              (fun x y => if inside im (x0 + x) (y0 + y)
                          then pixel im (x0 + x) (y0 + y) else transparent)).

(** [im.resize((w, h), LANCZOS)]: a same-size request copies, a target
    below 1x1 is refused.  Only the geometry of the resampling is kept:
    output pixel (x, y) reads the source at the proportional position;
    the Lanczos filter weights are not represented. *)
Definition resize (im : image rgba) (w h : Z) : exc (image rgba) :=
  if (width im =? w) && (height im =? h) then Ret (copy im)
  else if (w <? 1) || (h <? 1) then Raise ValueError
  else Ret (Image (Z.to_N w) (Z.to_N h)
              (fun x y => pixel im (x * width im / w) (y * height im / h))).

(** [Image.getbbox()] on a mode [L] image, after Pillow's [ImagingGetBBox]:
    one pass over the rows, growing the box at every non-zero pixel. *)
Definition bbox_row (im : image Z) (y : Z) (st : bool * Z * Z) : bool * Z * Z :=
  fold_left
    (fun (st : bool * Z * Z) (x : Z) =>
       let '(has_data, b0, b2) := st in
       if pixel im x y =? 0 then st
       else (true, (if x <? b0 then x else b0), (if x >=? b2 then x + 1 else b2)))
    (range (width im)) st.

Definition bbox_scan (im : image Z) : box :=
  fold_left
    (fun (bb : box) (y : Z) =>
       let '(b0, b1, b2, b3) := bb in
       let '(has_data, b0', b2') := bbox_row im y (false, b0, b2) in
       if has_data
       then (b0', (if b1 <? 0 then y else b1), b2', y + 1)
       else (b0', b1, b2', b3))
    (range (height im)) (width im, -1, 0, 0).

Definition getbbox (im : image Z) : option box :=
  let '(b0, b1, b2, b3) := bbox_scan im in
  if b1 <? 0 then None else Some (b0, b1, b2, b3).

(** A C [float]: the single-precision number nearest to [q]. *)
Definition single : Q -> Q := Py.nearest 24.

(** [Image.blend] on one channel, as [ImageEnhance] uses it, after Pillow's
    [ImagingBlend]: with [alpha = (float) f], the C expression
    [in1 + alpha * (in2 - in1)] from the degenerate value [d] to the pixel
    value [p], the product and the sum each rounded to single precision.
    For [alpha] in [0, 1] the result is cast to a byte as it is; otherwise
    it is clipped to [0, 255] first. *)
Definition blend_channel (d p : Z) (f : Q) : Z :=
  let alpha := single f in
  let temp := single (inject_Z d + single (alpha * inject_Z (p - d))) in
  if Qle_bool 0 alpha && Qle_bool alpha 1 then Py.int temp
  else if Qle_bool temp 0 then 0
  else if Qle_bool 255 temp then 255
  else Py.int temp.

Definition map_pixels (g : rgba -> rgba) (im : image rgba) : image rgba :=
  Image (xsize im) (ysize im) (fun x y => g (pixel im x y)).

(** [ImageEnhance.Brightness(im).enhance(f)]: blend with black, alpha kept. *)
Definition enhance_brightness (f : Q) (im : image rgba) : image rgba :=
  map_pixels (fun p => RGBA (blend_channel 0 (r_ p) f) (blend_channel 0 (g_ p) f)
                         (blend_channel 0 (b_ p) f) (a_ p)) im.

(** [ImageEnhance.Color(im).enhance(f)]: blend with the grey version. *)
Definition luma (p : rgba) : Z :=
  Z.shiftr (r_ p * 19595 + g_ p * 38470 + b_ p * 7471 + 32768) 16.

Definition enhance_color (f : Q) (im : image rgba) : image rgba :=
  map_pixels (fun p => let l := luma p in
                       RGBA (blend_channel l (r_ p) f) (blend_channel l (g_ p) f)
                         (blend_channel l (b_ p) f) (a_ p)) im.

End PIL.

Import PIL.

(** ** proxify.py: configuration *)

Definition CARD_WIDTH_MM : Q := 63.5.
Definition CARD_HEIGHT_MM : Q := 88.9.
Definition DPI : Q := 1200.
Definition MM_TO_IN : Q := 1 / 25.4.

Definition DESIRED_BORDER_TOP_MM : Q := 3.
Definition DESIRED_BORDER_LEFT_MM : Q := 3.
Definition DESIRED_BORDER_RIGHT_MM : Q := 3.
Definition DESIRED_BORDER_BOTTOM_MM : Q := 4.1.
Definition EXTENDED_ART_SCAN_OFFSET_Y_MM : Q := 3.

Definition CARD_WIDTH_PX : Z := Eval vm_compute in Py.round ((CARD_WIDTH_MM * MM_TO_IN) * DPI).
Definition CARD_HEIGHT_PX : Z := Eval vm_compute in Py.round ((CARD_HEIGHT_MM * MM_TO_IN) * DPI).

(** The module-level constants [resize_card] reads when it runs. *)
Record config : Type := Config {
  BORDER_TOP_PX : Z;
  BORDER_LEFT_PX : Z;
  BORDER_RIGHT_PX : Z;
  BORDER_BOTTOM_PX : Z;
  EXTENDED_ART_SCAN_OFFSET_Y_PX : Z;
  FULL_ART_BOTTOM_CROP_PX : Z;
  BLACK_BORDER_THRESHOLD : Z;
  EDGE_ZONE_CHECK_WIDTH_PX : Z;
  SATURATION_FACTOR : Q;
  BRIGHTNESS_FACTOR : Q;
  FORCE_STANDARD_FRAME_TYPE : bool
}.

(** Their values in the module as it is written. *)
Definition module_config : config := Eval vm_compute in {|
  BORDER_TOP_PX := Py.round ((DESIRED_BORDER_TOP_MM * MM_TO_IN) * DPI);
  BORDER_LEFT_PX := Py.round ((DESIRED_BORDER_LEFT_MM * MM_TO_IN) * DPI);
  BORDER_RIGHT_PX := Py.round ((DESIRED_BORDER_RIGHT_MM * MM_TO_IN) * DPI);
  BORDER_BOTTOM_PX := Py.round ((DESIRED_BORDER_BOTTOM_MM * MM_TO_IN) * DPI);
  EXTENDED_ART_SCAN_OFFSET_Y_PX := Py.round (EXTENDED_ART_SCAN_OFFSET_Y_MM * MM_TO_IN * DPI);
  FULL_ART_BOTTOM_CROP_PX := 80;
  BLACK_BORDER_THRESHOLD := 50;
  EDGE_ZONE_CHECK_WIDTH_PX := 10;
  SATURATION_FACTOR := 1.0;
  BRIGHTNESS_FACTOR := 1.0;
  FORCE_STANDARD_FRAME_TYPE := false
|}.

(** ** proxify.py: content extent detector *)

(** [r > threshold or g > threshold or b > threshold]. *)
Definition is_content (threshold : Z) (p : rgb) : bool :=
  (red p >? threshold) || (green p >? threshold) || (blue p >? threshold).

(** The image reaches this function in mode RGBA, so the conversion to RGB
    inside the [try] succeeds and its handler is never entered. *)
Definition get_content_bounding_box (image : PIL.image rgba) (threshold : Z)
  : exc (option box) :=
  let image_width := width image in
  let image_height := height image in
  if (image_width =? 0) || (image_height =? 0) then Ret None
  else
    temp_l_image_full <- PIL.new image_width image_height 0 ;;
    let source_img_rgb := convert_RGB image in
    '(dest_pixels_full_l, has_any_content_pixel) <-
      for_each (range image_height)
        (fun st y_f =>
           for_each (range image_width)
             (fun (st : PIL.image Z * bool) x_f =>
                let '(dest, has_any) := st in
                p <- getitem source_img_rgb x_f y_f ;;
                if is_content threshold p
                then dest' <- setitem dest x_f y_f 255 ;; Ret (dest', true)
                else Ret (dest, has_any))
             st)
        (temp_l_image_full, false) ;;
    if negb has_any_content_pixel then Ret None
    else Ret (getbbox dest_pixels_full_l).

(** The pair [(None, None)] is [None]; [(start, end)] is [Some (start, end)].
    The [try] around [image.load()] cannot fail on a loaded image; the pixel
    reads of the two scans are outside it and may raise [IndexError]. *)
Definition get_content_extents_at_row (image : PIL.image rgba) (y_row threshold : Z)
  : exc (option (Z * Z)) :=
  let width := width image in
  let bright (x : Z) : exc bool :=
    pixel_tuple <- getitem image x y_row ;;
    Ret (is_content threshold (first3 pixel_tuple)) in
  content_start_x <- first_hit bright (range width) (-1) ;;
  if content_start_x =? -1 then Ret None
  else
    content_end_x <-
      first_hit bright (range_down (width - 1) (content_start_x - 1)) content_start_x ;;
    Ret (Some (content_start_x, content_end_x)).

(** ** proxify.py: border solidity checker *)

(** One side of the check: the nested loops over the columns [xs] and the
    rows of the strip, leaving the flag [True] iff no pixel is content. *)
Definition side_is_solid (strip_pixels : PIL.image rgba) (xs : list Z)
  (strip_h threshold : Z) : exc bool :=
  found <- any_until
             (fun x_coord =>
                any_until
                  (fun y_coord =>
                     pixel_tuple <- getitem strip_pixels x_coord y_coord ;;
                     Ret (is_content threshold (first3 pixel_tuple)))
                  (range strip_h))
             xs ;;
  Ret (negb found).

(** [not strip_image] is [False] for every image object, and a strip in
    mode RGBA is used as it is. *)
Definition check_strip_for_solid_lr_border (strip_image : PIL.image rgba)
  (check_width_px threshold : Z) : exc bool :=
  if (height strip_image =? 0) || (width strip_image <? 2 * check_width_px)
  then Ret false
  else
    let strip_image_conv := strip_image in
    let strip_h := height strip_image_conv in
    let strip_w := width strip_image_conv in
    left_border_is_solid <-
      (if check_width_px >? 0
       then side_is_solid strip_image_conv (range check_width_px) strip_h threshold
       else Ret false) ;;
    if negb left_border_is_solid then Ret false
    else
      right_border_is_solid <-
        (if check_width_px >? 0
         then side_is_solid strip_image_conv
                (range2 (strip_w - check_width_px) strip_w) strip_h threshold
         else Ret false) ;;
      Ret (left_border_is_solid && right_border_is_solid).

(** ** proxify.py: frame classifier *)

Inductive card_type : Set := standard | extended_art | borderless.

Definition min_zone_height (edge_check_pixel_width : Z) : Z :=
  Z.max 1 (if edge_check_pixel_width >? 0 then edge_check_pixel_width / 2 else 1).

(** The crop box of the top zone.  The products [height * 0.05],
    [height * 0.50] and [height * 0.60] are taken exactly; for heights below
    2^31, as every Pillow image has, the float products truncate to the
    same integers. *)
Definition top_zone_box (width height edge_check_pixel_width : Z) : box :=
  let top_zone_actual_height :=
    Z.max (min_zone_height edge_check_pixel_width) (Py.int (inject_Z height * 0.05)) in
  (0, 0, width, top_zone_actual_height).

(** The crop box of the middle zone. *)
Definition middle_zone_box (width height edge_check_pixel_width : Z) : box :=
  let min_zone_height := min_zone_height edge_check_pixel_width in
  let middle_zone_top_y := Py.int (inject_Z height * 0.50) in
  let middle_zone_bottom_y := Py.int (inject_Z height * 0.60) in
  let middle_zone_calculated_height := middle_zone_bottom_y - middle_zone_top_y in
  let middle_zone_actual_height := Z.max min_zone_height middle_zone_calculated_height in
  let middle_zone_top_y :=
    if (middle_zone_actual_height =? min_zone_height)
       && (middle_zone_calculated_height <? min_zone_height)
    then
      if middle_zone_top_y + middle_zone_actual_height >? height
      then Z.max 0 (height - middle_zone_actual_height)
      else middle_zone_top_y
    else middle_zone_top_y in
  (0, middle_zone_top_y, width, middle_zone_top_y + middle_zone_actual_height).

Definition determine_card_type (image : PIL.image rgba)
  (threshold edge_check_pixel_width : Z) : exc card_type :=
  let '(width, height) := size image in
  if height <? 20 then Ret borderless
  else
    top_zone_img <- crop image (top_zone_box width height edge_check_pixel_width) ;;
    middle_zone_img <- crop image (middle_zone_box width height edge_check_pixel_width) ;;
    top_has_lr_border <-
      check_strip_for_solid_lr_border top_zone_img edge_check_pixel_width threshold ;;
    middle_has_lr_border <-
      check_strip_for_solid_lr_border middle_zone_img edge_check_pixel_width threshold ;;
    if top_has_lr_border && middle_has_lr_border then Ret standard
    else if top_has_lr_border && negb middle_has_lr_border then Ret extended_art
    else Ret borderless.

(** ** proxify.py: console output and the monad of [resize_card] *)

(** One constructor per [print] of [resize_card], in source order. *)
Inductive msg : Set :=
| Processing (original_w original_h : Z)
| ConfigOverrideStandard
| DetectedCardType (t : card_type)
| WarnNoOverallContent
| ExtendedArtScanning (vertical_sample_y : Z)
| ExtendedArtFoundSideContent (vertical_sample_y start_x end_x : Z)
| WarnNoSideContent (vertical_sample_y : Z)
| WarnSampleRowOutOfBounds (vertical_sample_y : Z)
| ExtendedArtSkipScan
| ActionStandard
| WarnProportionalCropInvalid
| FallbackToContentBox (b : box)
| FallbackToFullImage
| WarnContentBoxDegenerate
| ActionFullArtCrop
| WarnTrimExceedsHeight
| WarnZeroWidth
| ActionFullArtAsIs
| FallbackErrorResizeOriginal
| Finished (final_w final_h : Z)
| ErrorFileNotFound
| ErrorProcessing (e : exn).

(** A computation that may raise, together with what it printed so far. *)
Definition M (A : Type) : Type := (exc A * list msg)%type.

Definition mret {A : Type} (a : A) : M A := (Ret a, []).

Definition mbind {A B : Type} (m : M A) (k : A -> M B) : M B :=
  match m with
  | (Ret a, out) => let '(res, out') := k a in (res, out ++ out')
  | (Raise e, out) => (Raise e, out)
  end.

Definition print (m : msg) : M unit := (Ret tt, [m]).

Definition lift {A : Type} (c : exc A) : M A := (c, []).

(** [m] returns normally, with a value satisfying [P]. *)
Definition returns {A : Type} (m : M A) (P : A -> Prop) : Prop :=
  exists a out, m = (Ret a, out) /\ P a.

Declare Scope io_scope.
Delimit Scope io_scope with io.
Notation "x <- m ;; k" := (mbind m (fun x => k))
  (at level 61, m at next level, right associativity) : io_scope.
Notation "' p <- m ;; k" := (mbind m (fun x => match x with p => k end))
  (at level 61, p pattern, m at next level, right associativity) : io_scope.
Notation "m ;;; k" := (mbind m (fun _ => k))
  (at level 61, right associativity) : io_scope.

(** ** proxify.py: border-normalising cropper and card renderer *)

(** Effective content extents (the part of [resize_card] from
    [overall_content_bbox] to the end of the extended-art block). *)
Definition effective_content_extents (cfg : config) (original_img : PIL.image rgba)
  (card_type : card_type) (overall_content_bbox : option box) : M box :=
  (let '(original_w, original_h) := size original_img in
   ' (effective_cx0, effective_cy0, effective_cx1, effective_cy1) <-
     match overall_content_bbox with
     | Some b => mret b
     | None => print WarnNoOverallContent ;;; mret (0, 0, original_w, original_h)
     end ;;
   let unchanged := (effective_cx0, effective_cy0, effective_cx1, effective_cy1) in
   match card_type with
   | extended_art =>
       match overall_content_bbox with
       | Some _ =>
           let content_top_y_for_scan := effective_cy0 in
           let vertical_sample_y :=
             content_top_y_for_scan + EXTENDED_ART_SCAN_OFFSET_Y_PX cfg in
           if (0 <=? vertical_sample_y) && (vertical_sample_y <? original_h)
           then
             print (ExtendedArtScanning vertical_sample_y) ;;;
             at_row <- lift (get_content_extents_at_row original_img vertical_sample_y
                               (BLACK_BORDER_THRESHOLD cfg)) ;;
             match at_row with
             | Some (cx_at_row_start, cx_at_row_end) =>
                 if cx_at_row_start <=? cx_at_row_end
                 then
                   print (ExtendedArtFoundSideContent vertical_sample_y
                            cx_at_row_start cx_at_row_end) ;;;
                   mret (cx_at_row_start, effective_cy0, cx_at_row_end, effective_cy1)
                 else print (WarnNoSideContent vertical_sample_y) ;;; mret unchanged
             | None => print (WarnNoSideContent vertical_sample_y) ;;; mret unchanged
             end
           else print (WarnSampleRowOutOfBounds vertical_sample_y) ;;; mret unchanged
       | None => print ExtendedArtSkipScan ;;; mret unchanged
       end
   | _ => mret unchanged
   end)%io.

(** [final_artwork / current_content if current_content != 0 else 0]: the
    true division of two integers gives the float nearest to the quotient. *)
Definition scale_factor (final_artwork current_content : Z) : Q :=
  if current_content =? 0 then 0%Q
  else Py.float (inject_Z final_artwork / inject_Z current_content).

(** [round(BORDER_PX / scale) if abs(scale) > 1e-6 else 0]: the border is
    converted to a float and divided by the float [scale], the quotient
    rounded to a float again before [round] takes the nearest integer. *)
Definition keep_orig_border_px (border_px : Z) (scale : Q) : Z :=
  if negb (Qle_bool (Qabs scale) (Py.float 1e-6))
  then Py.round (Py.float (Py.float (inject_Z border_px) / scale))
  else 0.



(** The back-projected border widths [keep_orig_border_{left,top,right,bottom}_px],
    from the effective content box. *)
Definition keep_orig_borders (cfg : config)
  (target_final_card_width_px target_final_card_height_px : Z) (effective : box)
  : Z * Z * Z * Z :=
  let '(effective_cx0, effective_cy0, effective_cx1, effective_cy1) := effective in
  let current_content_width_orig := effective_cx1 - effective_cx0 in
  let current_content_height_orig := effective_cy1 - effective_cy0 in
  let final_artwork_width :=
    Z.max 1 (target_final_card_width_px - BORDER_LEFT_PX cfg - BORDER_RIGHT_PX cfg) in
  let final_artwork_height :=
    Z.max 1 (target_final_card_height_px - BORDER_TOP_PX cfg - BORDER_BOTTOM_PX cfg) in
  let scale_w := scale_factor final_artwork_width current_content_width_orig in
  let scale_h := scale_factor final_artwork_height current_content_height_orig in
  let keep_orig_border_left_px := keep_orig_border_px (BORDER_LEFT_PX cfg) scale_w in
  let keep_orig_border_top_px := keep_orig_border_px (BORDER_TOP_PX cfg) scale_h in
  let keep_orig_border_right_px := keep_orig_border_px (BORDER_RIGHT_PX cfg) scale_w in
  let keep_orig_border_bottom_px := keep_orig_border_px (BORDER_BOTTOM_PX cfg) scale_h in
  (keep_orig_border_left_px, keep_orig_border_top_px,
   keep_orig_border_right_px, keep_orig_border_bottom_px).

(** The proportional crop rectangle: the effective content box grown by the
    back-projected borders and clamped to the image. *)
Definition proportional_crop_box (cfg : config)
  (target_final_card_width_px target_final_card_height_px original_w original_h : Z)
  (effective : box) : box :=
  let '(effective_cx0, effective_cy0, effective_cx1, effective_cy1) := effective in
  let '(keep_orig_border_left_px, keep_orig_border_top_px,
        keep_orig_border_right_px, keep_orig_border_bottom_px) :=
    keep_orig_borders cfg target_final_card_width_px target_final_card_height_px
      effective in
  let crop_x0 := Z.max 0 (effective_cx0 - keep_orig_border_left_px) in
  let crop_y0 := Z.max 0 (effective_cy0 - keep_orig_border_top_px) in
  let crop_x1 := Z.min original_w (effective_cx1 + keep_orig_border_right_px) in
  let crop_y1 := Z.min original_h (effective_cy1 + keep_orig_border_bottom_px) in
  (crop_x0, crop_y0, crop_x1, crop_y1).

(** The standard / extended-art branch up to [img_to_final_resize], which
    starts as [None] and is set on every path. *)
Definition border_adjusted_crop (cfg : config) (original_img : PIL.image rgba)
  (card_type : card_type) (effective : box)
  (target_final_card_width_px target_final_card_height_px : Z)
  : M (option (PIL.image rgba)) :=
  (let '(original_w, original_h) := size original_img in
   let '(effective_cx0, effective_cy0, effective_cx1, effective_cy1) := effective in
   match card_type with standard => print ActionStandard | _ => mret tt end ;;;
   let current_content_width_orig := effective_cx1 - effective_cx0 in
   let current_content_height_orig := effective_cy1 - effective_cy0 in
   if (current_content_width_orig >? 0) && (current_content_height_orig >? 0)
   then
     let '(crop_x0, crop_y0, crop_x1, crop_y1) :=
       proportional_crop_box cfg target_final_card_width_px target_final_card_height_px
         original_w original_h effective in
     if (crop_x1 >? crop_x0) && (crop_y1 >? crop_y0)
     then
       cropped <- lift (crop original_img (crop_x0, crop_y0, crop_x1, crop_y1)) ;;
       mret (Some cropped)
     else
       print WarnProportionalCropInvalid ;;;
       if (effective_cx0 >=? 0) && (effective_cy0 >=? 0)
          && (effective_cx1 >? effective_cx0) && (effective_cy1 >? effective_cy0)
       then
         print (FallbackToContentBox effective) ;;;
         cropped <- lift (crop original_img effective) ;;
         mret (Some cropped)
       else print FallbackToFullImage ;;; mret (Some (copy original_img))
   else print WarnContentBoxDegenerate ;;; mret (Some (copy original_img)))%io.

(** The borderless branch up to [img_for_full_art_processing]. *)
Definition full_art_crop (cfg : config) (original_img : PIL.image rgba)
  : M (PIL.image rgba) :=
  (let '(original_w, original_h) := size original_img in
   let img_for_full_art_processing := copy original_img in
   if FULL_ART_BOTTOM_CROP_PX cfg >? 0
   then
     print ActionFullArtCrop ;;;
     if FULL_ART_BOTTOM_CROP_PX cfg >=? original_h
     then
       print WarnTrimExceedsHeight ;;;
       if original_h >? 0 then lift (crop original_img (0, 0, original_w, 1))
       else lift (PIL.new (Z.max 1 original_w) 1 transparent)
     else if original_w >? 0
     then
       let crop_bottom_y := Z.max 1 (original_h - FULL_ART_BOTTOM_CROP_PX cfg) in
       lift (crop original_img (0, 0, original_w, crop_bottom_y))
     else if original_w =? 0
     then print WarnZeroWidth ;;; lift (PIL.new 1 1 transparent)
     else mret img_for_full_art_processing
   else print ActionFullArtAsIs ;;; mret img_for_full_art_processing)%io.

(** The final sizing both branches end with: resize unless the size is
    already the target. *)
Definition resize_to_target (img : PIL.image rgba)
  (target_final_card_width_px target_final_card_height_px : Z) : exc (PIL.image rgba) :=
  if negb ((width img =? target_final_card_width_px)
           && (height img =? target_final_card_height_px))
  then resize img target_final_card_width_px target_final_card_height_px
  else Ret (copy img).

Definition apply_enhancements (cfg : config) (image_ready_for_enhancement : PIL.image rgba)
  : PIL.image rgba :=
  let image_after_enhancements := image_ready_for_enhancement in
  let image_after_enhancements :=
    if negb (Qeq_bool (BRIGHTNESS_FACTOR cfg) 1.0)
    then enhance_brightness (BRIGHTNESS_FACTOR cfg) image_after_enhancements
    else image_after_enhancements in
  if negb (Qeq_bool (SATURATION_FACTOR cfg) 1.0)
  then enhance_color (SATURATION_FACTOR cfg) image_after_enhancements
  else image_after_enhancements.

(** What [Image.open(image_path).convert("RGBA")] gives for each path: the
    decoded image, [FileNotFoundError], or the decoder's exception. *)
Definition disk : Type := string -> exc (PIL.image rgba).

(** The body of the [try] of [resize_card]. *)
Definition resize_card_try (cfg : config) (files : disk) (image_path : string)
  (target_final_card_width_px target_final_card_height_px : Z) : M (PIL.image rgba) :=
  (original_img <- lift (files image_path) ;;
   let '(original_w, original_h) := size original_img in
   print (Processing original_w original_h) ;;;
   card_type <-
     (if FORCE_STANDARD_FRAME_TYPE cfg
      then print ConfigOverrideStandard ;;; mret standard
      else
        t <- lift (determine_card_type original_img (BLACK_BORDER_THRESHOLD cfg)
                     (EDGE_ZONE_CHECK_WIDTH_PX cfg)) ;;
        print (DetectedCardType t) ;;; mret t) ;;
   overall_content_bbox <-
     lift (get_content_bounding_box original_img (BLACK_BORDER_THRESHOLD cfg)) ;;
   effective <- effective_content_extents cfg original_img card_type overall_content_bbox ;;
   image_ready_for_enhancement <-
     match card_type with
     | standard | extended_art =>
         img_to_final_resize <-
           border_adjusted_crop cfg original_img card_type effective
             target_final_card_width_px target_final_card_height_px ;;
         match img_to_final_resize with
         | Some img =>
             sized <- lift (resize_to_target img target_final_card_width_px
                              target_final_card_height_px) ;;
             mret (Some sized)
         | None => mret None
         end
     | borderless =>
         img_for_full_art_processing <- full_art_crop cfg original_img ;;
         sized <- lift (resize_to_target img_for_full_art_processing
                          target_final_card_width_px target_final_card_height_px) ;;
         mret (Some sized)
     end ;;
   image_ready_for_enhancement <-
     match image_ready_for_enhancement with
     | Some img => mret img
     | None =>
         print FallbackErrorResizeOriginal ;;;
         lift (resize (copy original_img) target_final_card_width_px
                 target_final_card_height_px)
     end ;;
   let image_after_enhancements := apply_enhancements cfg image_ready_for_enhancement in
   print (Finished (width image_after_enhancements) (height image_after_enhancements)) ;;;
   mret image_after_enhancements)%io.

(** [resize_card]: the [try] body under its two handlers. *)
Definition resize_card (cfg : config) (files : disk) (image_path : string)
  (target_final_card_width_px target_final_card_height_px : Z)
  : option (PIL.image rgba) * list msg :=
  match resize_card_try cfg files image_path target_final_card_width_px
          target_final_card_height_px with
  | (Ret card, out) => (Some card, out)
  | (Raise FileNotFoundError, out) => (None, out ++ [ErrorFileNotFound])
  | (Raise e, out) => (None, out ++ [ErrorProcessing e])
  end.

(** The width, in pixels of the final card, that [source_px] pixels of a
    crop [crop_len] long take once the crop is resized to [target_len]. *)
Definition printed_px (source_px crop_len target_len : Z) : Q :=
  (inject_Z source_px * inject_Z target_len / inject_Z crop_len)%Q.

(** ** Vocabulary of the specification *)

(** A pixel is background when no colour channel exceeds the threshold. *)
Definition background (threshold : Z) (p : rgba) : Prop :=
  r_ p <= threshold /\ g_ p <= threshold /\ b_ p <= threshold.

(** A pixel is content when some colour channel exceeds the threshold. *)
Definition content (threshold : Z) (p : rgba) : Prop :=
  r_ p > threshold \/ g_ p > threshold \/ b_ p > threshold.

(** Every pixel of the columns [lo <= x < hi] of the strip is background. *)
Definition columns_dark (strip : PIL.image rgba) (threshold lo hi : Z) : Prop :=
  forall x y, lo <= x < hi -> 0 <= y < height strip ->
              background threshold (pixel strip x y).






(** The classification table of the frame classifier. *)
Definition classification (top_solid middle_solid : bool) : card_type :=
  match top_solid, middle_solid with
  | true, true => standard
  | true, false => extended_art
  | false, _ => borderless
  end.

(** ** Sample images *)

Definition white : rgba := RGBA 255 255 255 255.
Definition black : rgba := RGBA 0 0 0 255.

(** A black [w] x [h] card with white artwork in the box [bx]. *)
Definition framed (w h : N) (bx : box) : PIL.image rgba :=
  let '(x0, y0, x1, y1) := bx in
  Image w h (fun x y =>
               if (x0 <=? x) && (x <? x1) && (y0 <=? y) && (y <? y1) then white else black).

(** A low-resolution standard-frame card: 30 x 30 with 10 x 10 artwork. *)
Definition small_framed_card : PIL.image rgba := framed 30 30 (10, 12, 20, 22).

(** An extended-art card: a black cap above row 4, artwork over the full
    width below it. *)
Definition extended_card : PIL.image rgba := framed 40 200 (0, 4, 40, 196).

(** A print-resolution extended-art card, 1520 x 2120: artwork on the
    columns 80..1438 of the rows 80..2011, reaching both edges of the image
    on the rows 1000..1299. *)
Definition print_resolution_extended_card : PIL.image rgba :=
  Image 1520 2120
    (fun x y => if ((80 <=? x) && (x <? 1439) && (80 <=? y) && (y <? 2012))
                   || ((1000 <=? y) && (y <? 1300))
                then white else black).


(** An all-white 30 x 100 image (no frame at all). *)
Definition full_art_card : PIL.image rgba := framed 30 100 (0, 0, 30, 100).

(** The top zone of a framed card, as a strip. *)
Definition sample_strip : PIL.image rgba := framed 30 5 (10, 0, 20, 5).

(** A disk holding one decodable card. *)
Definition one_card_disk : disk :=
  fun path => if String.eqb path "card.png" then Ret small_framed_card
              else Raise FileNotFoundError.

From Stdlib Require Import Ascii DecimalString DecimalN.

(** ** Further vocabulary *)

(** Every pixel of the rows [y0 <= y < y1] of the image that lies in its
    leftmost or rightmost [edge_width] columns is background. *)
Definition side_bands_dark (img : PIL.image rgba) (threshold edge_width y0 y1 : Z) : Prop :=
  forall x y, y0 <= y < y1 ->
              0 <= x < edge_width \/ width img - edge_width <= x < width img ->
              background threshold (pixel img x y).

(** A box inside another one. *)
Definition box_within (inner outer : box) : Prop :=
  let '(a0, b0, a1, b1) := inner in
  let '(x0, y0, x1, y1) := outer in
  x0 <= a0 /\ a1 <= x1 /\ y0 <= b0 /\ b1 <= y1.

(** An all-black card, 60 x 40. *)
Definition black_card : PIL.image rgba := framed 60 40 (0, 0, 0, 0).

(** ** Python strings and lists *)

(** A [str] is a [string]; its characters are read as code points below
    256.  [chars] and [text] pass between a string and the list of its
    characters. *)
Definition chars (s : string) : list ascii := list_ascii_of_string s.
Definition text (cs : list ascii) : string := string_of_list_ascii cs.

(** [l[i]]: a negative index counts from the end, an index outside the list
    raises [IndexError]. *)
Definition list_getitem {A : Type} (l : list A) (i : Z) : exc A :=
  let n := Z.of_nat (List.length l) in
  let i := if i <? 0 then n + i else i in
  if (0 <=? i) && (i <? n)
  then match nth_error l (Z.to_nat i) with
       | Some a => Ret a
       | None => Raise IndexError
       end
  else Raise IndexError.

(** [l[i:j]] for [0 <= i]. *)
Definition list_slice {A : Type} (l : list A) (i j : Z) : list A :=
  firstn (Z.to_nat (j - i)) (skipn (Z.to_nat i) l).

(** [range(start, stop, step)] for a positive [step]. *)
Definition range_step (start stop step : Z) : list Z :=
  map (fun k => start + k * step) (range ((stop - start + step - 1) / step)).

(** [str(n)]. *)
Definition str_of_int (n : Z) : string :=
  if n <? 0
  then String "-" (NilEmpty.string_of_uint (N.to_uint (Z.to_N (- n))))
  else NilEmpty.string_of_uint (N.to_uint (Z.to_N n)).

(** [s.strip(c)] for a single character [c]. *)
Fixpoint lstrip (c : ascii) (s : list ascii) : list ascii :=
  match s with
  | [] => []
  | a :: s' => if Ascii.eqb a c then lstrip c s' else s
  end.

Definition rstrip (c : ascii) (s : list ascii) : list ascii := rev (lstrip c (rev s)).

Definition strip (c : ascii) (s : list ascii) : list ascii := rstrip c (lstrip c s).

(** [re.sub('[...]+', repl, s)] for a character class: every maximal run of
    characters of the class is replaced by one [repl].  [in_match] tells
    that the previous character was part of the current run. *)
Fixpoint re_sub_runs (in_class : ascii -> bool) (repl : list ascii) (in_match : bool)
  (s : list ascii) : list ascii :=
  match s with
  | [] => []
  | c :: s' =>
      if in_class c
      then (if in_match then [] else repl) ++ re_sub_runs in_class repl true s'
      else c :: re_sub_runs in_class repl false s'
  end.

Definition re_sub_class_plus (in_class : ascii -> bool) (repl s : list ascii)
  : list ascii :=
  re_sub_runs in_class repl false s.

(** The class [\s] of a [str] pattern, on code points below 256. *)
Definition is_space (c : ascii) : bool :=
  let n := N_of_ascii c in
  ((9 <=? n) && (n <=? 13) || (28 <=? n) && (n <=? 31) || (n =? 32)
   || (n =? 133) || (n =? 160))%N.

(** ** os.path (POSIX) *)

Definition sep : ascii := "/".
Definition extsep : ascii := ".".

(** [p.rfind(c)]: the index of the last [c], or [-1]. *)
Fixpoint rfind_from (c : ascii) (p : list ascii) (i last : Z) : Z :=
  match p with
  | [] => last
  | a :: p' => rfind_from c p' (i + 1) (if Ascii.eqb a c then i else last)
  end.

Definition rfind (p : list ascii) (c : ascii) : Z := rfind_from c p 0 (-1).

(** [os.path.basename(p)]: [p[p.rfind('/') + 1:]]. *)
Definition basename (p : list ascii) : list ascii :=
  let i := rfind p sep + 1 in
  skipn (Z.to_nat i) p.

(** [os.path.splitext(p)]: split at the last dot, unless that dot is at or
    before the last separator or only dots precede it in the file name. *)
Definition splitext (p : list ascii) : list ascii * list ascii :=
  let sepIndex := rfind p sep in
  let dotIndex := rfind p extsep in
  if dotIndex >? sepIndex
  then
    if existsb (fun filenameIndex =>
                  negb (Ascii.eqb (nth (Z.to_nat filenameIndex) p extsep) extsep))
         (range2 (sepIndex + 1) dotIndex)
    then (firstn (Z.to_nat dotIndex) p, skipn (Z.to_nat dotIndex) p)
    else (p, [])
  else (p, []).

(** [os.path.join(a, b)]. *)
Definition join (a b : list ascii) : list ascii :=
  match b with
  | c :: _ => if Ascii.eqb c sep then b
              else match rev a with
                   | [] => a ++ b
                   | z :: _ => if Ascii.eqb z sep then a ++ b else a ++ sep :: b
                   end
  | [] => match rev a with
          | [] => a ++ b
          | z :: _ => if Ascii.eqb z sep then a ++ b else a ++ sep :: b
          end
  end.

(** ** proxify.py: file name sanitising *)

(** The character class of [invalid_chars]: the characters [<], [>], [:],
    the double quote, the slash, the backslash, [|], [?] and the star, white
    space, and the dot. *)
Definition invalid_char (c : ascii) : bool :=
  let n := N_of_ascii c in
  ((n =? 60) || (n =? 62) || (n =? 58) || (n =? 34) || (n =? 47) || (n =? 92)
   || (n =? 124) || (n =? 63) || (n =? 42))%N
  || is_space c || (N_of_ascii c =? 46)%N.

Definition underscore : ascii := "_".

Definition sanitize_chars (name_component : list ascii) : list ascii :=
  let name_component := basename name_component in
  let name_component := fst (splitext name_component) in
  let sanitized := re_sub_class_plus invalid_char [underscore] name_component in
  let sanitized := re_sub_class_plus (fun c => Ascii.eqb c underscore) [underscore]
                     sanitized in
  let sanitized := strip underscore sanitized in
  match sanitized with
  | [] => chars "file"
  | _ => sanitized
  end.

Definition sanitize_filename_component (name_component : string) : string :=
  text (sanitize_chars (chars name_component)).

(** ** proxify.py: page layout *)

Definition PAPER_WIDTH_IN : Q := 8.5.
Definition PAPER_HEIGHT_IN : Q := 11.
Definition LINE_COLOR : Z * Z * Z := (255, 51, 153).
Definition LINE_WIDTH : Z := 4.

Definition PAPER_WIDTH_PX : Z := Eval vm_compute in Py.round (PAPER_WIDTH_IN * DPI).
Definition PAPER_HEIGHT_PX : Z := Eval vm_compute in Py.round (PAPER_HEIGHT_IN * DPI).

Definition GRID_WIDTH_PX : Z := 3 * CARD_WIDTH_PX.
Definition GRID_HEIGHT_PX : Z := 3 * CARD_HEIGHT_PX.

(** [MARGIN_X] and [MARGIN_Y], after the clamping [if] that follows them. *)
Definition MARGIN_X : Z :=
  let MARGIN_X := (PAPER_WIDTH_PX - GRID_WIDTH_PX) / 2 in
  let MARGIN_Y := (PAPER_HEIGHT_PX - GRID_HEIGHT_PX) / 2 in
  if (MARGIN_X <? 0) || (MARGIN_Y <? 0) then Z.max 0 MARGIN_X else MARGIN_X.

Definition MARGIN_Y : Z :=
  let MARGIN_X := (PAPER_WIDTH_PX - GRID_WIDTH_PX) / 2 in
  let MARGIN_Y := (PAPER_HEIGHT_PX - GRID_HEIGHT_PX) / 2 in
  if (MARGIN_X <? 0) || (MARGIN_Y <? 0) then Z.max 0 MARGIN_Y else MARGIN_Y.

(** ** proxify.py: sheet composer *)

(** The calls [create_printable_sheet] makes on the sheet, in order. *)
Inductive sheet_op : Type :=
| SheetNew (w h : Z) (color : rgba)
| SheetPaste (card_img : PIL.image rgba) (paste_x_sheet paste_y_sheet : Z)
| SheetLine (x0 y0 x1 y1 : Z) (fill : Z * Z * Z) (line_width : Z)
| SheetSave (output_path_for_sheet : string) (dpi : Q * Q).

(** What it prints, with the output of the [resize_card] calls in between. *)
Inductive sheet_msg : Type :=
| CreatingSheet (basename_of_output_path : string)
| CardOutput (m : msg)
| SavedSheet (output_path_for_sheet : string)
| ErrorSavingSheet (output_path_for_sheet : string).

(** A [for] loop over local variables [s] whose body may [break]; the
    result tells whether it did. *)
Fixpoint for_break {St : Type} (xs : list Z) (body : St -> Z -> St * bool) (s : St)
  : St * bool :=
  match xs with
  | [] => (s, false)
  | x :: xs' =>
      let '(s', broke) := body s x in
      if broke then (s', true) else for_break xs' body s'
  end.

(** The state of the grid loops: [current_image_index], the calls made on
    the sheet and the console output. *)
Definition sheet_state : Type := (Z * list sheet_op * list sheet_msg)%type.

(** The body of the inner loop, for one cell.  The index has just been
    compared with the length, so the lookup does not raise. *)
Definition place_card (cfg : config) (files : disk) (image_file_paths_chunk : list string)
  (row : Z) (st : sheet_state) (col : Z) : sheet_state * bool :=
  let '(current_image_index, ops, out) := st in
  if current_image_index <? Z.of_nat (List.length image_file_paths_chunk)
  then
    match list_getitem image_file_paths_chunk current_image_index with
    | Ret image_path =>
        let '(card_img, printed) :=
          resize_card cfg files image_path CARD_WIDTH_PX CARD_HEIGHT_PX in
        let out := out ++ map CardOutput printed in
        match card_img with
        | Some card =>
            let paste_x_sheet := MARGIN_X + col * CARD_WIDTH_PX in
            let paste_y_sheet := MARGIN_Y + row * CARD_HEIGHT_PX in
            ((current_image_index + 1,
              ops ++ [SheetPaste card paste_x_sheet paste_y_sheet], out), false)
        | None => ((current_image_index + 1, ops, out), false)
        end
    | Raise _ => (st, true)
    end
  else (st, true).

(** [sheet.save] either succeeds or raises; [save_raises] tells which. *)
Definition create_printable_sheet (cfg : config) (files : disk) (save_raises : bool)
  (image_file_paths_chunk : list string) (output_path_for_sheet : string)
  : list sheet_op * list sheet_msg :=
  let out := [CreatingSheet (text (basename (chars output_path_for_sheet)))] in
  let ops := [SheetNew PAPER_WIDTH_PX PAPER_HEIGHT_PX (RGBA 255 255 255 255)] in
  let current_image_index := 0 in
  let '((current_image_index, ops, out), _) :=
    for_break (range 3)
      (fun st row =>
         let '((current_image_index, ops, out), _) :=
           for_break (range 3) (place_card cfg files image_file_paths_chunk row) st in
         ((current_image_index, ops, out),
          current_image_index >=? Z.of_nat (List.length image_file_paths_chunk)))
      (current_image_index, ops, out) in
  let ops :=
    ops ++ map (fun col_idx =>
                  let line_x := MARGIN_X + col_idx * CARD_WIDTH_PX in
                  SheetLine (line_x - LINE_WIDTH / 2) 0
                    (line_x - LINE_WIDTH / 2) PAPER_HEIGHT_PX LINE_COLOR LINE_WIDTH)
             (range2 1 3) in
  let ops :=
    ops ++ map (fun row_idx =>
                  let line_y := MARGIN_Y + row_idx * CARD_HEIGHT_PX in
                  SheetLine 0 (line_y - LINE_WIDTH / 2)
                    PAPER_WIDTH_PX (line_y - LINE_WIDTH / 2) LINE_COLOR LINE_WIDTH)
             (range2 1 3) in
  let ops := ops ++ [SheetSave output_path_for_sheet (DPI, DPI)] in
  (ops, out ++ [if save_raises then ErrorSavingSheet output_path_for_sheet
                else SavedSheet output_path_for_sheet]).

(** ** proxify.py: the batch loop of the main program *)

(** What the main program does once the folder is listed: its console
    lines and its calls of [create_printable_sheet], in order.  A run that
    calls [exit()] ends with the corresponding [Exit] event. *)
Inductive main_event : Type :=
| FoundImages (num_total_images : Z)
| ExitNoImages
| ExitFewerThanNine (num_total_images : Z)
| ExitNoCompleteSheet (num_total_images : Z)
| ForceStandardNotice
| ProcessingBatch (number : Z) (output_sheet_name : string)
| CallCreatePrintableSheet (current_chunk_paths : list string)
    (full_output_path_for_sheet : string)
| FinishedCreated (num_sheets_created : Z)
| NoFullSheets (num_total_images : Z)
| LeftoverNote (leftover_count : Z)
| LeftoverFilesHeader
| LeftoverFile (leftover_idx : Z).

Definition output_sheet_name (first_file_sanitized last_file_sanitized : string)
  (number : Z) : string :=
  (first_file_sanitized ++ "_to_" ++ last_file_sanitized ++ "_sheet_"
   ++ str_of_int number ++ ".png")%string.

(** The main program from [num_total_images = len(all_image_files)] on;
    [all_image_files] is the sorted list of image paths of the folder. *)
Definition main_batches (cfg : config) (all_image_files : list string)
  (output_dir_path : string) : exc (list main_event) :=
  let num_total_images := Z.of_nat (List.length all_image_files) in
  let events := [FoundImages num_total_images] in
  if num_total_images =? 0 then Ret (events ++ [ExitNoImages])
  else if num_total_images <? 9 then Ret (events ++ [ExitFewerThanNine num_total_images])
  else
    let num_images_to_process_in_full_sheets := (num_total_images / 9) * 9 in
    if num_images_to_process_in_full_sheets =? 0
    then Ret (events ++ [ExitNoCompleteSheet num_total_images])
    else
      let events :=
        if FORCE_STANDARD_FRAME_TYPE cfg then events ++ [ForceStandardNotice]
        else events in
      '(events, num_sheets_created) <-
        for_each (range_step 0 num_images_to_process_in_full_sheets 9)
          (fun (st : list main_event * Z) i =>
             let '(events, num_sheets_created) := st in
             let current_chunk_paths := list_slice all_image_files i (i + 9) in
             first_path <- list_getitem current_chunk_paths 0 ;;
             last_path <- list_getitem current_chunk_paths (-1) ;;
             let first_file_sanitized := sanitize_filename_component first_path in
             let last_file_sanitized := sanitize_filename_component last_path in
             let name := output_sheet_name first_file_sanitized last_file_sanitized
                           (num_sheets_created + 1) in
             let full_output_path_for_sheet :=
               text (join (chars output_dir_path) (chars name)) in
             Ret (events ++ [ProcessingBatch (num_sheets_created + 1) name;
                             CallCreatePrintableSheet current_chunk_paths
                               full_output_path_for_sheet],
                  num_sheets_created + 1))
          (events, 0) ;;
      let events :=
        if num_sheets_created >? 0 then events ++ [FinishedCreated num_sheets_created]
        else if num_total_images >? 0 then events ++ [NoFullSheets num_total_images]
        else events in
      let leftover_count := num_total_images mod 9 in
      if leftover_count >? 0
      then Ret (events ++ [LeftoverNote leftover_count; LeftoverFilesHeader]
                  ++ map LeftoverFile
                       (range2 num_images_to_process_in_full_sheets num_total_images))
      else Ret events.

(** The chunks handed to [create_printable_sheet], in call order. *)
Definition sheets_made (events : list main_event) : list (list string * string) :=
  flat_map (fun e => match e with
                     | CallCreatePrintableSheet chunk path => [(chunk, path)]
                     | _ => []
                     end) events.

(** The sheet names announced, in order. *)
Definition sheet_names (events : list main_event) : list (Z * string) :=
  flat_map (fun e => match e with
                     | ProcessingBatch k name => [(k, name)]
                     | _ => []
                     end) events.

(** The indices listed as left over, in order. *)
Definition leftover_indices (events : list main_event) : list Z :=
  flat_map (fun e => match e with LeftoverFile i => [i] | _ => [] end) events.

(** The cards a sheet shows: for the first nine paths of the chunk that
    render, the card and its cell origin. *)
Definition cards_on_sheet (cfg : config) (files : disk) (chunk : list string)
  : list sheet_op :=
  flat_map (fun '(i, image_path) =>
              match fst (resize_card cfg files image_path CARD_WIDTH_PX CARD_HEIGHT_PX) with
              | Some card => [SheetPaste card (MARGIN_X + (i mod 3) * CARD_WIDTH_PX)
                                (MARGIN_Y + (i / 3) * CARD_HEIGHT_PX)]
              | None => []
              end)
    (combine (range 9) chunk).

(** The rectangle a paste covers. *)
Definition paste_rect (op : sheet_op) : option box :=
  match op with
  | SheetPaste card x y => Some (x, y, x + width card, y + height card)
  | _ => None
  end.

Definition boxes_disjoint (a b : box) : Prop :=
  let '(ax0, ay0, ax1, ay1) := a in
  let '(bx0, by0, bx1, by1) := b in
  ax1 <= bx0 \/ bx1 <= ax0 \/ ay1 <= by0 \/ by1 <= ay0.

(** Some file paths for the examples. *)
Definition eleven_files : list string :=
  ["a01.png"; "a02.png"; "a03.png"; "a04.png"; "a05.png"; "a06.png";
   "a07.png"; "a08.png"; "a09.png"; "a10.png"; "a11.png"]%string.

(** ** Vocabulary for file names *)

(** [s] starts with the character [c]. *)
Definition starts_with (c : ascii) (s : list ascii) : Prop :=
  match s with
  | a :: _ => a = c
  | [] => False
  end.

(** No two neighbours of [s] are both [c]. *)
Fixpoint no_adjacent (c : ascii) (s : list ascii) : Prop :=
  match s with
  | a :: s' => (a = c -> ~ starts_with c s') /\ no_adjacent c s'
  | [] => True
  end.

(** A clean file name component: not empty, made of valid characters only,
    with no underscore at either end and no two underscores in a row. *)
Definition clean_component (s : list ascii) : Prop :=
  s <> []
  /\ Forall (fun c => invalid_char c = false) s
  /\ no_adjacent underscore s
  /\ ~ starts_with underscore s
  /\ ~ starts_with underscore (rev s).

(** * Properties *)

(** ** Ranges and loops *)

Section Ranges.

Lemma in_range (n x : Z) : In x (range n) <-> 0 <= x < n.
Proof.
  unfold range. rewrite in_map_iff. split.
  - intros (k & <- & Hk). apply in_seq in Hk. lia.
  - intros Hx. exists (Z.to_nat x). split; [lia|]. apply in_seq. lia.
Qed.

Lemma in_range2 (a b x : Z) : In x (range2 a b) <-> a <= x < b.
Proof.
  unfold range2. rewrite in_map_iff. split.
  - intros (k & <- & Hk). apply in_range in Hk. lia.
  - intros Hx. exists (x - a). split; [lia|]. apply in_range. lia.
Qed.

(** The first hit of a search along [h s], [h (s+1)], ... *)
Lemma find_map_seq (g : Z -> bool) (h : nat -> Z) (len s : nat) :
  match find g (map h (seq s len)) with
  | Some x => exists i, (s <= i < s + len)%nat /\ x = h i /\ g x = true
                        /\ forall j, (s <= j < i)%nat -> g (h j) = false
  | None => forall j, (s <= j < s + len)%nat -> g (h j) = false
  end.
Proof.
  revert s. induction len as [|len IH]; intros s; simpl.
  - intros j Hj. lia.
  - destruct (g (h s)) eqn:Hg.
    + exists s. repeat split; try lia. exact Hg.
    + specialize (IH (S s)). destruct (find g (map h (seq (S s) len))).
      * destruct IH as (i & Hi & -> & Hgi & Hlt). exists i.
        repeat split; try lia; [exact Hgi|].
        intros j Hj. destruct (Nat.eq_dec j s) as [->|]; [exact Hg|apply Hlt; lia].
      * intros j Hj. destruct (Nat.eq_dec j s) as [->|]; [exact Hg|apply IH; lia].
Qed.

Lemma find_range (g : Z -> bool) (n : Z) :
  match find g (range n) with
  | Some x => 0 <= x < n /\ g x = true /\ forall x', 0 <= x' < x -> g x' = false
  | None => forall x', 0 <= x' < n -> g x' = false
  end.
Proof.
  unfold range. pose proof (find_map_seq g Z.of_nat (Z.to_nat n) 0) as H.
  destruct (find g (map Z.of_nat (seq 0 (Z.to_nat n)))).
  - destruct H as (i & Hi & -> & Hg & Hlt). repeat split; try lia; [exact Hg|].
    intros x' Hx'. rewrite <- (Z2Nat.id x') by lia. apply Hlt. lia.
  - intros x' Hx'. rewrite <- (Z2Nat.id x') by lia. apply H. lia.
Qed.

Lemma find_range_down (g : Z -> bool) (start stop : Z) :
  match find g (range_down start stop) with
  | Some x => stop < x <= start /\ g x = true
              /\ forall x', x < x' <= start -> g x' = false
  | None => forall x', stop < x' <= start -> g x' = false
  end.
Proof.
  unfold range_down, range. rewrite map_map.
  pose proof (find_map_seq g (fun i => start - Z.of_nat i)
                (Z.to_nat (start - stop)) 0) as H.
  destruct (find g _).
  - destruct H as (i & Hi & -> & Hg & Hlt). repeat split; try lia; [exact Hg|].
    intros x' Hx'. replace x' with (start - Z.of_nat (Z.to_nat (start - x'))) by lia.
    apply Hlt. lia.
  - intros x' Hx'. replace x' with (start - Z.of_nat (Z.to_nat (start - x'))) by lia.
    apply H. lia.
Qed.

(** A loop whose body never raises is the corresponding list function. *)
Lemma any_until_pure {A : Type} (f : A -> exc bool) (g : A -> bool) (xs : list A) :
  (forall x, In x xs -> f x = Ret (g x)) -> any_until f xs = Ret (existsb g xs).
Proof.
  induction xs as [|x xs IH]; intros H; simpl; [reflexivity|].
  rewrite (H x) by (left; reflexivity). simpl.
  destruct (g x); [reflexivity|]. apply IH. intros y Hy. apply H. right; exact Hy.
Qed.

Lemma first_hit_pure (f : Z -> exc bool) (g : Z -> bool) (xs : list Z) (dflt : Z) :
  (forall x, In x xs -> f x = Ret (g x)) ->
  first_hit f xs dflt = Ret (match find g xs with Some x => x | None => dflt end).
Proof.
  induction xs as [|x xs IH]; intros H; simpl; [reflexivity|].
  rewrite (H x) by (left; reflexivity). simpl.
  destruct (g x); [reflexivity|]. apply IH. intros y Hy. apply H. right; exact Hy.
Qed.

(** Loop invariant rule for [for i in range(n)] with a body that may raise. *)
Lemma for_each_seq_inv {St : Type} (I : Z -> St -> Prop) (body : St -> Z -> exc St)
  (len s : nat) (st : St) :
  I (Z.of_nat s) st ->
  (forall k st', Z.of_nat s <= k < Z.of_nat (s + len) -> I k st' ->
                 exists st'', body st' k = Ret st'' /\ I (k + 1) st'') ->
  exists st', for_each (map Z.of_nat (seq s len)) body st = Ret st'
              /\ I (Z.of_nat (s + len)) st'.
Proof.
  revert s st. induction len as [|len IH]; intros s st H0 Hstep; simpl.
  - exists st. split; [reflexivity|]. now rewrite Nat.add_0_r.
  - destruct (Hstep (Z.of_nat s) st) as (st1 & Hb & H1); [lia|exact H0|].
    rewrite Hb. simpl.
    destruct (IH (S s) st1) as (st2 & Hf & H2).
    + replace (Z.of_nat (S s)) with (Z.of_nat s + 1) by lia. exact H1.
    + intros k st' Hk. apply Hstep. lia.
    + exists st2. split; [exact Hf|].
      replace (s + S len)%nat with (S s + len)%nat by lia. exact H2.
Qed.

Lemma for_each_range_inv {St : Type} (I : Z -> St -> Prop) (body : St -> Z -> exc St)
  (n : Z) (st : St) :
  I 0 st ->
  (forall k st', 0 <= k < n -> I k st' ->
                 exists st'', body st' k = Ret st'' /\ I (k + 1) st'') ->
  exists st', for_each (range n) body st = Ret st' /\ I (Z.max 0 n) st'.
Proof.
  intros H0 Hstep. unfold range.
  destruct (for_each_seq_inv I body (Z.to_nat n) 0 st) as (st' & Hf & Hi).
  - exact H0.
  - intros k st' Hk. apply Hstep. lia.
  - exists st'. split; [exact Hf|].
    replace (Z.max 0 n) with (Z.of_nat (0 + Z.to_nat n)) by lia. exact Hi.
Qed.

(** The same rule for a pure loop written with [fold_left]. *)
Lemma fold_left_seq_inv {St : Type} (I : Z -> St -> Prop) (body : St -> Z -> St)
  (len s : nat) (st : St) :
  I (Z.of_nat s) st ->
  (forall k st', Z.of_nat s <= k < Z.of_nat (s + len) -> I k st' ->
                 I (k + 1) (body st' k)) ->
  I (Z.of_nat (s + len)) (fold_left body (map Z.of_nat (seq s len)) st).
Proof.
  revert s st. induction len as [|len IH]; intros s st H0 Hstep; simpl.
  - now rewrite Nat.add_0_r.
  - replace (s + S len)%nat with (S s + len)%nat by lia. apply IH.
    + replace (Z.of_nat (S s)) with (Z.of_nat s + 1) by lia. apply Hstep; [lia|exact H0].
    + intros k st' Hk. apply Hstep. lia.
Qed.

Lemma fold_left_range_inv {St : Type} (I : Z -> St -> Prop) (body : St -> Z -> St)
  (n : Z) (st : St) :
  I 0 st ->
  (forall k st', 0 <= k < n -> I k st' -> I (k + 1) (body st' k)) ->
  I (Z.max 0 n) (fold_left body (range n) st).
Proof.
  intros H0 Hstep. unfold range.
  replace (Z.max 0 n) with (Z.of_nat (0 + Z.to_nat n)) by lia.
  apply fold_left_seq_inv; [exact H0|]. intros k st' Hk. apply Hstep. lia.
Qed.

End Ranges.

(** ** Pixels *)

Lemma is_content_false (t : Z) (p : rgba) :
  is_content t (first3 p) = false <-> background t p.
Proof.
  unfold is_content, background. simpl.
  rewrite !orb_false_iff, !Z.gtb_ltb, !Z.ltb_ge. tauto.
Qed.

Lemma is_content_true (t : Z) (p : rgba) :
  is_content t (first3 p) = true <-> content t p.
Proof.
  unfold is_content, content. simpl.
  rewrite !orb_true_iff, !Z.gtb_ltb, !Z.ltb_lt. lia.
Qed.

Lemma content_not_background (t : Z) (p : rgba) : content t p <-> ~ background t p.
Proof. unfold content, background. lia. Qed.

Lemma width_nonneg {P : Type} (im : PIL.image P) : 0 <= width im.
Proof. unfold width. lia. Qed.

Lemma height_nonneg {P : Type} (im : PIL.image P) : 0 <= height im.
Proof. unfold height. lia. Qed.

Lemma getitem_inside {P : Type} (im : PIL.image P) (x y : Z) :
  0 <= x < width im -> 0 <= y < height im -> getitem im x y = Ret (pixel im x y).
Proof.
  intros Hx Hy. unfold getitem, inside.
  replace (x <? 0) with false by lia. replace (y <? 0) with false by lia.
  replace (0 <=? x) with true by lia. replace (x <? width im) with true by lia.
  replace (0 <=? y) with true by lia. replace (y <? height im) with true by lia.
  reflexivity.
Qed.

(** ** Border solidity checker *)

Section Solidity.

Variable strip : PIL.image rgba.
Variable threshold : Z.

Let dark (x y : Z) : bool := negb (is_content threshold (first3 (pixel strip x y))).

Lemma side_is_solid_pure (xs : list Z) :
  (forall x, In x xs -> 0 <= x < width strip) ->
  side_is_solid strip xs (height strip) threshold
  = Ret (forallb (fun x => forallb (dark x) (range (height strip))) xs).
Proof.
  intros Hxs. unfold side_is_solid.
  rewrite (any_until_pure _
             (fun x => existsb (fun y => is_content threshold (first3 (pixel strip x y)))
                         (range (height strip)))).
  - simpl. f_equal. induction xs as [|x xs IH]; simpl; [reflexivity|].
    rewrite negb_orb, IH by (intros; apply Hxs; now right). f_equal.
    clear. induction (range (height strip)) as [|y ys IHy]; simpl; [reflexivity|].
    unfold dark at 1. now rewrite negb_orb, IHy.
  - intros x Hx. apply any_until_pure. intros y Hy. apply in_range in Hy.
    rewrite getitem_inside by (auto using Hxs). reflexivity.
Qed.

Lemma side_is_solid_range (lo hi : Z) :
  0 <= lo -> hi <= width strip ->
  exists b, side_is_solid strip (range2 lo hi) (height strip) threshold = Ret b
            /\ (b = true <-> columns_dark strip threshold lo hi).
Proof.
  intros Hlo Hhi. eexists. split.
  - apply side_is_solid_pure. intros x Hx. apply in_range2 in Hx. lia.
  - rewrite forallb_forall. unfold columns_dark. split.
    + intros H x y Hx Hy. apply is_content_false.
      assert (Hin : In x (range2 lo hi)) by (apply in_range2; exact Hx).
      specialize (H x Hin). rewrite forallb_forall in H.
      specialize (H y (proj2 (in_range _ _) Hy)). unfold dark in H.
      now apply negb_true_iff in H.
    + intros H x Hx. apply in_range2 in Hx. apply forallb_forall. intros y Hy.
      apply in_range in Hy. unfold dark. apply negb_true_iff, is_content_false.
      apply H; assumption.
Qed.

Lemma range2_from_zero (n : Z) : range2 0 n = range n.
Proof.
  unfold range2. rewrite Z.sub_0_r. rewrite <- (map_id (range n)) at 2.
  apply map_ext. intros i. reflexivity.
Qed.

(** What the check answers, for every strip, width and threshold. *)
Lemma check_strip_characterised (edge_width : Z) :
  exists b, check_strip_for_solid_lr_border strip edge_width threshold = Ret b
            /\ (b = true <->
                height strip <> 0 /\ 2 * edge_width <= width strip /\ 0 < edge_width
                /\ columns_dark strip threshold 0 edge_width
                /\ columns_dark strip threshold (width strip - edge_width) (width strip)).
Proof.
  unfold check_strip_for_solid_lr_border.
  destruct (height strip =? 0) eqn:Hh; cbn [orb].
  { exists false. split; [reflexivity|]. split; [discriminate|]. lia. }
  destruct (width strip <? 2 * edge_width) eqn:Hw.
  { exists false. split; [reflexivity|]. split; [discriminate|]. lia. }
  destruct (edge_width >? 0) eqn:He.
  2:{ exists false. split; [reflexivity|]. split; [discriminate|]. lia. }
  apply Z.eqb_neq in Hh. apply Z.ltb_ge in Hw. rewrite Z.gtb_ltb in He.
  apply Z.ltb_lt in He.
  destruct (side_is_solid_range 0 edge_width) as (bl & Hl & Hbl); [lia|lia|].
  rewrite range2_from_zero in Hl. rewrite Hl. cbn [Py.bind].
  destruct bl; cbn [negb].
  - destruct (side_is_solid_range (width strip - edge_width) (width strip))
      as (br & Hr & Hbr); [lia|lia|].
    rewrite Hr. cbn [Py.bind andb]. exists br. split; [reflexivity|].
    rewrite Hbr. intuition.
  - exists false. split; [reflexivity|]. split; [discriminate|].
    intros (_ & _ & _ & Hd & _). apply Hbl in Hd. discriminate.
Qed.

End Solidity.

(** C9: [check_strip_for_solid_lr_border] answers [False] whenever the strip
    is narrower than twice the edge width, has zero height, or the edge width
    is not positive; in every other case it answers [True] exactly when every
    pixel of the leftmost and of the rightmost [edge_width] columns, over the
    full height of the strip, has its three colour channels at or below the
    threshold.  It never raises. *)
Theorem C9_solid_lr_border_spec (strip : PIL.image rgba) (edge_width threshold : Z) :
  exists b, check_strip_for_solid_lr_border strip edge_width threshold = Ret b
    /\ (width strip < 2 * edge_width \/ height strip = 0 \/ edge_width <= 0 -> b = false)
    /\ (~ (width strip < 2 * edge_width \/ height strip = 0 \/ edge_width <= 0) ->
        (b = true <->
         columns_dark strip threshold 0 edge_width
         /\ columns_dark strip threshold (width strip - edge_width) (width strip))).
Proof.
  destruct (check_strip_characterised strip threshold edge_width) as (b & Hrun & Hb).
  exists b. split; [exact Hrun|]. split.
  - intros Hdeg. destruct b; [|reflexivity].
    destruct Hb as [Hb _]. destruct (Hb eq_refl) as (H1 & H2 & H3 & _). lia.
  - intros Hok. rewrite Hb. split.
    + intros (_ & _ & _ & Hl & Hr). split; assumption.
    + intros (Hl & Hr). split; [|split; [|split; [|split; assumption]]]; lia.
Qed.

(** C8: the check is monotone in the edge width: for a fixed strip and
    threshold, and widths [0 < w1 <= w2] with the strip at least [2 * w2]
    wide, an answer [True] at [w2] forces the answer [True] at [w1]. *)
Theorem C8_solid_lr_border_monotone (strip : PIL.image rgba) (threshold w1 w2 : Z) :
  0 < w1 <= w2 ->
  2 * w2 <= width strip ->
  check_strip_for_solid_lr_border strip w2 threshold = Ret true ->
  check_strip_for_solid_lr_border strip w1 threshold = Ret true.
Proof.
  intros Hw Hwide H2.
  destruct (check_strip_characterised strip threshold w2) as (b2 & Hrun2 & Hb2).
  destruct (check_strip_characterised strip threshold w1) as (b1 & Hrun1 & Hb1).
  rewrite Hrun2 in H2. injection H2 as ->. rewrite Hrun1. f_equal.
  apply Hb1. destruct Hb2 as [Hb2 _].
  destruct (Hb2 eq_refl) as (Hh & _ & _ & Hl & Hr).
  split; [exact Hh|]. split; [lia|]. split; [lia|]. split.
  - intros x y Hx Hy. apply Hl; [lia|exact Hy].
  - intros x y Hx Hy. apply Hr; [lia|exact Hy].
Qed.

Lemma C8_solid_lr_border_monotone_witness :
  check_strip_for_solid_lr_border sample_strip 3 50 = Ret true.
Proof.
  apply (C8_solid_lr_border_monotone sample_strip 50 3 10).
  - lia.
  - vm_compute. discriminate.
  - vm_compute. reflexivity.
Defined.

(** ** Row extents *)

Lemma extents_at_row_characterised (image : PIL.image rgba) (y_row threshold : Z) :
  0 <= y_row < height image ->
  exists res, get_content_extents_at_row image y_row threshold = Ret res
    /\ match res with
       | None => forall x, 0 <= x < width image -> background threshold (pixel image x y_row)
       | Some (start_x, end_x) =>
           0 <= start_x <= end_x /\ end_x < width image
           /\ content threshold (pixel image start_x y_row)
           /\ content threshold (pixel image end_x y_row)
           /\ (forall x, 0 <= x < start_x -> background threshold (pixel image x y_row))
           /\ (forall x, end_x < x < width image ->
                         background threshold (pixel image x y_row))
       end.
Proof.
  intros Hy. unfold get_content_extents_at_row.
  set (g := fun x => is_content threshold (first3 (pixel image x y_row))).
  set (f := fun x : Z => Py.bind (getitem image x y_row)
                           (fun p => Ret (is_content threshold (first3 p)))).
  assert (Hf : forall x, 0 <= x < width image -> f x = Ret (g x)).
  { intros x Hx. unfold f. now rewrite getitem_inside by assumption. }
  rewrite (first_hit_pure f g) by (intros x Hx; apply in_range in Hx; auto).
  cbn [Py.bind]. pose proof (find_range g (width image)) as Hfind.
  destruct (find g (range (width image))) as [s|].
  - destruct Hfind as (Hs & Hgs & Hbefore).
    replace (s =? -1) with false by lia.
    rewrite (first_hit_pure f g)
      by (intros x Hx; apply Hf; unfold range_down in Hx; apply in_map_iff in Hx;
          destruct Hx as (i & <- & Hi); apply in_range in Hi; lia).
    cbn [Py.bind]. eexists. split; [reflexivity|].
    pose proof (find_range_down g (width image - 1) (s - 1)) as Hdown.
    destruct (find g (range_down (width image - 1) (s - 1))) as [e|].
    + destruct Hdown as (He & Hge & Hafter).
      split; [lia|]. split; [lia|].
      split; [now apply is_content_true|]. split; [now apply is_content_true|]. split.
      * intros x Hx. apply is_content_false. now apply Hbefore.
      * intros x Hx. apply is_content_false. apply Hafter. lia.
    + split; [lia|]. split; [lia|].
      split; [now apply is_content_true|]. split; [now apply is_content_true|]. split.
      * intros x Hx. apply is_content_false. now apply Hbefore.
      * intros x Hx. apply is_content_false. apply Hdown. lia.
  - replace (-1 =? -1) with true by reflexivity.
    eexists. split; [reflexivity|]. intros x Hx. apply is_content_false. now apply Hfind.
Qed.

(** C10: on every image and every in-bounds row, [get_content_extents_at_row]
    returns either [(None, None)] or a pair [(start_x, end_x)] with
    [0 <= start_x <= end_x < width]; the pixels at both columns of that row
    are content and every column left of [start_x] is background.  So
    [start_x <= end_x] always holds for a result that is not [None]. *)
Theorem C10_row_extents_ordered (image : PIL.image rgba) (y_row threshold : Z) :
  0 <= y_row < height image ->
  get_content_extents_at_row image y_row threshold = Ret None
  \/ exists start_x end_x,
      get_content_extents_at_row image y_row threshold = Ret (Some (start_x, end_x))
      /\ 0 <= start_x <= end_x /\ end_x < width image
      /\ content threshold (pixel image start_x y_row)
      /\ content threshold (pixel image end_x y_row)
      /\ forall x, 0 <= x < start_x -> background threshold (pixel image x y_row).
Proof.
  intros Hy.
  destruct (extents_at_row_characterised image y_row threshold Hy) as (res & Hrun & Hres).
  destruct res as [[s e]|]; [right|left; exact Hrun].
  exists s, e. split; [exact Hrun|]. intuition.
Qed.

Lemma C10_row_extents_ordered_witness :
  get_content_extents_at_row small_framed_card 15 50 = Ret None
  \/ exists start_x end_x,
      get_content_extents_at_row small_framed_card 15 50 = Ret (Some (start_x, end_x))
      /\ 0 <= start_x <= end_x /\ end_x < width small_framed_card
      /\ content 50 (pixel small_framed_card start_x 15)
      /\ content 50 (pixel small_framed_card end_x 15)
      /\ forall x, 0 <= x < start_x -> background 50 (pixel small_framed_card x 15).
Proof.
  apply (C10_row_extents_ordered small_framed_card 15 50).
  vm_compute. split; [discriminate|reflexivity].
Defined.

(** ** Frame classifier *)

Ltac div_lia := Z.to_euclidean_division_equations; lia.

(** [int(height * n/d)] for a non-negative height. *)
Lemma int_scaled (h n : Z) (d : positive) :
  0 <= h -> 0 <= n -> Py.int (inject_Z h * (n # d)) = h * n / Z.pos d.
Proof.
  intros Hh Hn. unfold Py.int. cbn [Qnum Qden Qmult inject_Z].
  rewrite Z.quot_div_nonneg by nia. reflexivity.
Qed.

Lemma min_zone_height_pos (e : Z) : 1 <= min_zone_height e.
Proof. unfold min_zone_height. lia. Qed.

Lemma top_zone_box_shape (w h e : Z) :
  0 <= h ->
  exists zone_h, top_zone_box w h e = (0, 0, w, zone_h) /\ 1 <= zone_h.
Proof.
  intros Hh. unfold top_zone_box. eexists. split; [reflexivity|].
  pose proof (min_zone_height_pos e). lia.
Qed.

Lemma middle_zone_box_shape (w h e : Z) :
  0 <= h ->
  exists top zone_h,
    middle_zone_box w h e = (0, top, w, top + zone_h) /\ 0 <= top /\ 1 <= zone_h.
Proof.
  intros Hh. unfold middle_zone_box.
  pose proof (min_zone_height_pos e) as Hm.
  rewrite !int_scaled by lia.
  set (m := min_zone_height e) in *.
  set (top := h * 50 / 100). set (bot := h * 60 / 100).
  assert (0 <= top) by (subst top; div_lia).
  destruct ((Z.max m (bot - top) =? m) && (bot - top <? m)).
  - destruct (top + Z.max m (bot - top) >? h);
      eexists; eexists; (split; [reflexivity|]); lia.
  - eexists; eexists; (split; [reflexivity|]); lia.
Qed.

(** The middle zone stays inside the image whenever the minimum zone height
    fits into the image. *)
Lemma middle_zone_within_image (w h e : Z) :
  20 <= h -> min_zone_height e <= h ->
  let '(x0, y0, x1, y1) := middle_zone_box w h e in
  x0 = 0 /\ x1 = w /\ 0 <= y0 /\ y0 < y1 /\ y1 <= h.
Proof.
  intros Hh Hfit. unfold middle_zone_box.
  pose proof (min_zone_height_pos e) as Hm.
  rewrite !int_scaled by lia.
  set (m := min_zone_height e) in *.
  set (top := h * 50 / 100). set (bot := h * 60 / 100).
  assert (0 <= top) by (subst top; div_lia).
  assert (top <= bot <= h) by (subst top bot; div_lia).
  destruct ((Z.max m (bot - top) =? m) && (bot - top <? m)) eqn:Hclamp.
  - destruct (top + Z.max m (bot - top) >? h) eqn:Hover.
    + rewrite Z.gtb_ltb in Hover. lia.
    + rewrite Z.gtb_ltb in Hover. apply Z.ltb_ge in Hover. lia.
  - apply andb_false_iff in Hclamp.
    assert (m <= bot - top) by (destruct Hclamp as [Hc|Hc]; lia).
    lia.
Qed.

Lemma crop_valid (im : PIL.image rgba) (x0 y0 x1 y1 : Z) :
  x0 <= x1 -> y0 <= y1 ->
  exists out, crop im (x0, y0, x1, y1) = Ret out
              /\ width out = x1 - x0 /\ height out = y1 - y0
              /\ forall x y, 0 <= x < x1 - x0 -> 0 <= y < y1 - y0 ->
                   pixel out x y = if inside im (x0 + x) (y0 + y)
                                   then pixel im (x0 + x) (y0 + y) else transparent.
Proof.
  intros Hx Hy. unfold crop.
  replace (x1 <? x0) with false by lia. replace (y1 <? y0) with false by lia.
  cbn [orb]. eexists. split; [reflexivity|]. unfold width, height. cbn [xsize ysize pixel].
  split; [lia|]. split; [lia|]. reflexivity.
Qed.

Lemma determine_card_type_small (image : PIL.image rgba) (threshold e : Z) :
  height image < 20 -> determine_card_type image threshold e = Ret borderless.
Proof.
  intros Hh. unfold determine_card_type, size.
  replace (height image <? 20) with true by lia. reflexivity.
Qed.

Lemma determine_card_type_zones (image : PIL.image rgba) (threshold e : Z) :
  20 <= height image ->
  exists top_zone middle_zone top_solid middle_solid,
    crop image (top_zone_box (width image) (height image) e) = Ret top_zone
    /\ crop image (middle_zone_box (width image) (height image) e) = Ret middle_zone
    /\ check_strip_for_solid_lr_border top_zone e threshold = Ret top_solid
    /\ check_strip_for_solid_lr_border middle_zone e threshold = Ret middle_solid
    /\ determine_card_type image threshold e
       = Ret (classification top_solid middle_solid).
Proof.
  intros Hh. unfold determine_card_type, size.
  replace (height image <? 20) with false by lia.
  pose proof (width_nonneg image) as Hw.
  destruct (top_zone_box_shape (width image) (height image) e) as (th & -> & Hth); [lia|].
  destruct (middle_zone_box_shape (width image) (height image) e)
    as (mt & mh & -> & Hmt & Hmh); [lia|].
  destruct (crop_valid image 0 0 (width image) th) as (tz & -> & _); [lia|lia|].
  destruct (crop_valid image 0 mt (width image) (mt + mh)) as (mz & -> & _); [lia|lia|].
  cbn [Py.bind].
  destruct (check_strip_characterised tz threshold e) as (tb & Htb & _).
  destruct (check_strip_characterised mz threshold e) as (mb & Hmb & _).
  rewrite Htb, Hmb. cbn [Py.bind]. exists tz, mz, tb, mb.
  do 2 (split; [reflexivity|]). do 2 (split; [assumption|]).
  destruct tb, mb; reflexivity.
Qed.

(** C2: [determine_card_type] answers [borderless] for every image less than
    20 pixels high, whatever the threshold and edge width; for every other
    image it crops the top and the middle zone, runs the solid left/right
    border check on both, and answers [standard] when both pass,
    [extended_art] when only the top zone passes, and [borderless] when the
    top zone fails, whatever the middle zone says. *)
Theorem C2_classification_table (image : PIL.image rgba) (threshold edge_width : Z) :
  (height image < 20 -> determine_card_type image threshold edge_width = Ret borderless)
  /\ (20 <= height image ->
      exists top_zone middle_zone top_solid middle_solid,
        crop image (top_zone_box (width image) (height image) edge_width) = Ret top_zone
        /\ crop image (middle_zone_box (width image) (height image) edge_width)
           = Ret middle_zone
        /\ check_strip_for_solid_lr_border top_zone edge_width threshold = Ret top_solid
        /\ check_strip_for_solid_lr_border middle_zone edge_width threshold
           = Ret middle_solid
        /\ (top_solid = true -> middle_solid = true ->
            determine_card_type image threshold edge_width = Ret standard)
        /\ (top_solid = true -> middle_solid = false ->
            determine_card_type image threshold edge_width = Ret extended_art)
        /\ (top_solid = false ->
            determine_card_type image threshold edge_width = Ret borderless)).
Proof.
  split; [apply determine_card_type_small|].
  intros Hh.
  destruct (determine_card_type_zones image threshold edge_width Hh)
    as (tz & mz & tb & mb & Ht & Hm & Hct & Hcm & Hres).
  exists tz, mz, tb, mb. rewrite Hres.
  repeat (split; [assumption|]).
  split; [intros -> ->; reflexivity|]. split; [intros -> ->; reflexivity|].
  intros ->. reflexivity.
Qed.

(** C7 (the code departs from the claim): on an image 20 pixels high and an
    edge check width of 42 the minimum zone height is 21, the middle zone is
    moved up to row 0 and still ends at row 21, one row below the image; the
    crop is padded with a transparent row and the classifier goes on to
    answer [standard] for the all-black image. *)
Theorem C7_middle_zone_leaves_image :
  min_zone_height 42 = 21
  /\ height (framed 100 20 (0, 0, 0, 0)) = 20
  /\ middle_zone_box 100 20 42 = (0, 0, 100, 21)
  /\ (exists zone, crop (framed 100 20 (0, 0, 0, 0)) (middle_zone_box 100 20 42) = Ret zone
                   /\ height zone = 21 /\ pixel zone 0 20 = transparent)
  /\ determine_card_type (framed 100 20 (0, 0, 0, 0)) 50 42 = Ret standard.
Proof.
  split; [reflexivity|]. split; [reflexivity|]. split; [reflexivity|]. split.
  - eexists. split; [reflexivity|]. split; reflexivity.
  - vm_compute. reflexivity.
Qed.

(** ** Bounding box of a mask ([Image.getbbox]) *)

Section GetBBox.

Variable m : PIL.image Z.

(** State of the scan of row [y] after the columns below [j], entered with
    the horizontal bounds [a0], [a2]. *)
Let row_inv (y a0 a2 j : Z) (st : bool * Z * Z) : Prop :=
  let hd := fst (fst st) in
  let b0 := snd (fst st) in
  let b2 := snd st in
  (forall x, 0 <= x < j -> pixel m x y <> 0 -> b0 <= x < b2)
  /\ b0 <= a0 /\ a2 <= b2
  /\ (b0 = a0 \/ (0 <= b0 < j /\ pixel m b0 y <> 0))
  /\ (b2 = a2 \/ (0 <= b2 - 1 < j /\ pixel m (b2 - 1) y <> 0))
  /\ (hd = false -> b0 = a0 /\ b2 = a2 /\ forall x, 0 <= x < j -> pixel m x y = 0)
  /\ (hd = true -> exists x, 0 <= x < j /\ pixel m x y <> 0).

Lemma bbox_row_spec (y a0 a2 : Z) :
  row_inv y a0 a2 (width m) (bbox_row m y (false, a0, a2)).
Proof.
  unfold bbox_row.
  replace (width m) with (Z.max 0 (width m)) at 1 by (pose proof (width_nonneg m); lia).
  apply fold_left_range_inv.
  - unfold row_inv; cbn [fst snd]. split; [intros; lia|].
    split; [lia|]. split; [lia|]. split; [now left|]. split; [now left|].
    split; [|discriminate]. intros _. split; [reflexivity|]. split; [reflexivity|].
    intros; lia.
  - intros j [[hd b0] b2] Hj (Hin & H0 & H2 & Hw0 & Hw2 & Hf & Ht).
    cbn [fst snd] in *.
    destruct (pixel m j y =? 0) eqn:Hp.
    + apply Z.eqb_eq in Hp. unfold row_inv; cbn [fst snd].
      split. { intros x Hx Hnz. assert (x <> j) by congruence. apply Hin; [lia|exact Hnz]. }
      split; [lia|]. split; [lia|].
      split. { destruct Hw0 as [->|[? ?]]; [now left|right; split; [lia|assumption]]. }
      split. { destruct Hw2 as [->|[? ?]]; [now left|right; split; [lia|assumption]]. }
      split.
      * intros Hhd. destruct (Hf Hhd) as (-> & -> & Hz).
        split; [reflexivity|]. split; [reflexivity|].
        intros x Hx. destruct (Z.eq_dec x j) as [->|]; [exact Hp|apply Hz; lia].
      * intros Hhd. destruct (Ht Hhd) as (x & Hx & Hnz). exists x. split; [lia|exact Hnz].
    + apply Z.eqb_neq in Hp. unfold row_inv; cbn [fst snd].
      split.
      { intros x Hx Hnz. destruct (Z.eq_dec x j) as [->|Hne].
        - destruct (j <? b0) eqn:E1, (j >=? b2) eqn:E2; lia.
        - specialize (Hin x ltac:(lia) Hnz).
          destruct (j <? b0) eqn:E1, (j >=? b2) eqn:E2; lia. }
      split. { destruct (j <? b0) eqn:E1; lia. }
      split. { destruct (j >=? b2) eqn:E2; lia. }
      split.
      { destruct (j <? b0) eqn:E1.
        - right. split; [lia|exact Hp].
        - destruct Hw0 as [->|[? ?]]; [now left|right; split; [lia|assumption]]. }
      split.
      { destruct (j >=? b2) eqn:E2.
        - right. replace (j + 1 - 1) with j by lia. split; [lia|exact Hp].
        - destruct Hw2 as [->|[? ?]]; [now left|right; split; [lia|assumption]]. }
      split; [discriminate|]. intros _. exists j. split; [lia|exact Hp].
Qed.

(** State of the scan after the rows below [k]. *)
Let box_inv (k : Z) (bb : box) : Prop :=
  let '(b0, b1, b2, b3) := bb in
  (b1 < 0 -> b0 = width m /\ b1 = -1 /\ b2 = 0 /\ b3 = 0
             /\ forall x y, 0 <= x < width m -> 0 <= y < k -> pixel m x y = 0)
  /\ (0 <= b1 ->
      (forall x y, 0 <= x < width m -> 0 <= y < k -> pixel m x y <> 0 ->
                   b0 <= x < b2 /\ b1 <= y < b3)
      /\ (exists y, 0 <= y < k /\ 0 <= b0 < width m /\ pixel m b0 y <> 0)
      /\ (exists y, 0 <= y < k /\ 0 <= b2 - 1 < width m /\ pixel m (b2 - 1) y <> 0)
      /\ (exists x, 0 <= x < width m /\ 0 <= b1 < k /\ pixel m x b1 <> 0)
      /\ (exists x, 0 <= x < width m /\ 0 <= b3 - 1 < k /\ pixel m x (b3 - 1) <> 0)).

Lemma bbox_scan_spec : box_inv (height m) (bbox_scan m).
Proof.
  unfold bbox_scan.
  replace (height m) with (Z.max 0 (height m)) at 1 by (pose proof (height_nonneg m); lia).
  apply fold_left_range_inv.
  - unfold box_inv. split; [|lia]. intros _. repeat (split; [reflexivity|]). intros; lia.
  - intros k [[[b0 b1] b2] b3] Hk (Hnone & Hsome).
    pose proof (bbox_row_spec k b0 b2) as Hrow.
    destruct (bbox_row m k (false, b0, b2)) as [[hd b0'] b2'].
    destruct Hrow as (Hin & H0 & H2 & Hw0 & Hw2 & Hf & Ht). cbn [fst snd] in *.
    destruct hd.
    + destruct (Ht eq_refl) as (xk & Hxk & Hnzk). clear Hf Ht.
      pose proof (Hin xk Hxk Hnzk) as Hxk_in.
      unfold box_inv. split; [destruct (b1 <? 0) eqn:E; lia|]. intros _.
      destruct (Z_lt_le_dec b1 0) as [Hneg|Hpos].
      * destruct (Hnone Hneg) as (-> & -> & -> & -> & Hz).
        replace (-1 <? 0) with true by reflexivity.
        split.
        { intros x y Hx Hy Hnz. destruct (Z.eq_dec y k) as [->|Hne].
          - specialize (Hin x Hx Hnz). lia.
          - exfalso. apply Hnz. apply Hz; lia. }
        split. { exists k. destruct Hw0 as [->|[? ?]]; [lia|]. split; [lia|]. split; [lia|assumption]. }
        split. { exists k. destruct Hw2 as [->|[? ?]]; [lia|]. split; [lia|]. split; [lia|assumption]. }
        split. { exists xk. split; [lia|]. split; [lia|assumption]. }
        exists xk. replace (k + 1 - 1) with k by lia. split; [lia|]. split; [lia|assumption].
      * destruct (Hsome Hpos) as (Hbox & (y0 & Hy0 & Hb0 & Hnz0) & (y2 & Hy2 & Hb2 & Hnz2)
                                  & (x1 & Hx1 & Hb1 & Hnz1) & (x3 & Hx3 & Hb3 & Hnz3)).
        replace (b1 <? 0) with false by lia.
        split.
        { intros x y Hx Hy Hnz. destruct (Z.eq_dec y k) as [->|Hne].
          - specialize (Hin x Hx Hnz). lia.
          - specialize (Hbox x y Hx ltac:(lia) Hnz). lia. }
        split.
        { destruct Hw0 as [->|[? ?]].
          - exists y0. split; [lia|]. split; [lia|assumption].
          - exists k. split; [lia|]. split; [lia|assumption]. }
        split.
        { destruct Hw2 as [->|[? ?]].
          - exists y2. split; [lia|]. split; [lia|assumption].
          - exists k. split; [lia|]. split; [lia|assumption]. }
        split. { exists x1. split; [lia|]. split; [lia|assumption]. }
        exists xk. replace (k + 1 - 1) with k by lia. split; [lia|]. split; [lia|assumption].
    + destruct (Hf eq_refl) as (-> & -> & Hz). clear Hf Ht.
      unfold box_inv. split.
      * intros Hneg. destruct (Hnone Hneg) as (-> & -> & -> & -> & Hz').
        repeat (split; [reflexivity|]). intros x y Hx Hy.
        destruct (Z.eq_dec y k) as [->|Hne]; [apply Hz; lia|apply Hz'; lia].
      * intros Hpos.
        destruct (Hsome Hpos) as (Hbox & (y0 & Hy0 & Hb0 & Hnz0) & (y2 & Hy2 & Hb2 & Hnz2)
                                  & (x1 & Hx1 & Hb1 & Hnz1) & (x3 & Hx3 & Hb3 & Hnz3)).
        split.
        { intros x y Hx Hy Hnz. destruct (Z.eq_dec y k) as [->|Hne].
          - exfalso. apply Hnz. apply Hz; lia.
          - apply Hbox; [lia|lia|assumption]. }
        split. { exists y0. split; [lia|]. split; [lia|assumption]. }
        split. { exists y2. split; [lia|]. split; [lia|assumption]. }
        split. { exists x1. split; [lia|]. split; [lia|assumption]. }
        exists x3. split; [lia|]. split; [lia|assumption].
Qed.

(** [getbbox] is [None] on an all-zero mask, and otherwise the tight box of
    the non-zero pixels. *)
Lemma getbbox_spec :
  match getbbox m with
  | None => forall x y, 0 <= x < width m -> 0 <= y < height m -> pixel m x y = 0
  | Some (b0, b1, b2, b3) =>
      (forall x y, 0 <= x < width m -> 0 <= y < height m -> pixel m x y <> 0 ->
                   b0 <= x < b2 /\ b1 <= y < b3)
      /\ (exists y, 0 <= y < height m /\ 0 <= b0 < width m /\ pixel m b0 y <> 0)
      /\ (exists y, 0 <= y < height m /\ 0 <= b2 - 1 < width m /\ pixel m (b2 - 1) y <> 0)
      /\ (exists x, 0 <= x < width m /\ 0 <= b1 < height m /\ pixel m x b1 <> 0)
      /\ (exists x, 0 <= x < width m /\ 0 <= b3 - 1 < height m
                    /\ pixel m x (b3 - 1) <> 0)
  end.
Proof.
  unfold getbbox. pose proof bbox_scan_spec as H.
  destruct (bbox_scan m) as [[[b0 b1] b2] b3]. destruct H as (Hnone & Hsome).
  destruct (b1 <? 0) eqn:E.
  - apply Z.ltb_lt in E. apply (Hnone E).
  - apply Z.ltb_ge in E. apply (Hsome E).
Qed.

End GetBBox.

(** ** Overall content bounding box *)

Section ContentMask.

Variable image : PIL.image rgba.
Variable threshold : Z.

Let bright (x y : Z) : bool := is_content threshold (first3 (pixel image x y)).

(** State of the marking loops once the pixels in [done] have been visited. *)
Let mask_inv (done : Z -> Z -> Prop) (st : PIL.image Z * bool) : Prop :=
  xsize (fst st) = xsize image /\ ysize (fst st) = ysize image
  /\ (forall x y, 0 <= x < width image -> 0 <= y < height image -> done x y ->
                  pixel (fst st) x y = if bright x y then 255 else 0)
  /\ (forall x y, 0 <= x < width image -> 0 <= y < height image -> ~ done x y ->
                  pixel (fst st) x y = 0)
  /\ (snd st = true ->
      exists x y, 0 <= x < width image /\ 0 <= y < height image /\ bright x y = true)
  /\ (snd st = false ->
      forall x y, 0 <= x < width image -> 0 <= y < height image -> done x y ->
                  bright x y = false).

Lemma mask_inv_ext (P Q : Z -> Z -> Prop) (st : PIL.image Z * bool) :
  (forall x y, 0 <= x < width image -> 0 <= y < height image -> (P x y <-> Q x y)) ->
  mask_inv P st -> mask_inv Q st.
Proof.
  intros Hext (Hx & Hy & Hdone & Htodo & Ht & Hf).
  split; [exact Hx|]. split; [exact Hy|]. split.
  { intros x y Hbx Hby HQ. apply Hdone; try assumption. now apply Hext. }
  split.
  { intros x y Hbx Hby HQ. apply Htodo; try assumption. intros HP. apply HQ.
    now apply Hext. }
  split; [exact Ht|].
  intros Hs x y Hbx Hby HQ. apply Hf; try assumption. now apply Hext.
Qed.

Lemma mark_pixel_step (k j : Z) (st : PIL.image Z * bool) :
  0 <= k < height image -> 0 <= j < width image ->
  mask_inv (fun x y => y < k \/ (y = k /\ x < j)) st ->
  exists st',
    (let '(dest, has_any) := st in
     p <- getitem (convert_RGB image) j k ;;
     if is_content threshold p
     then dest' <- setitem dest j k 255 ;; Ret (dest', true)
     else Ret (dest, has_any)) = Ret st'
    /\ mask_inv (fun x y => y < k \/ (y = k /\ x < j + 1)) st'.
Proof.
  intros Hk Hj (Hx & Hy & Hdone & Htodo & Ht & Hf). destruct st as [dest has_any].
  cbn [fst snd] in *.
  rewrite getitem_inside by (unfold width, height; cbn [convert_RGB xsize ysize]; assumption).
  cbn [Py.bind convert_RGB pixel]. fold (bright j k).
  destruct (bright j k) eqn:Hb.
  - assert (Hins : setitem dest j k 255
                   = Ret (Image (xsize dest) (ysize dest)
                            (fun x' y' => if (x' =? j) && (y' =? k) then 255
                                          else pixel dest x' y'))).
    { unfold setitem, inside, width, height. rewrite Hx, Hy.
      unfold width, height in Hk, Hj.
      replace (j <? 0) with false by lia. replace (k <? 0) with false by lia.
      replace (0 <=? j) with true by lia. replace (0 <=? k) with true by lia.
      replace (j <? Z.of_N (xsize image)) with true by lia.
      replace (k <? Z.of_N (ysize image)) with true by lia. reflexivity. }
    rewrite Hins. cbn [Py.bind]. eexists. split; [reflexivity|].
    split; [exact Hx|]. split; [exact Hy|]. cbn [fst snd pixel]. split.
    { intros x y Hbx Hby Hd.
      destruct ((x =? j) && (y =? k)) eqn:E.
      - apply andb_true_iff in E. destruct E as [E1 E2].
        apply Z.eqb_eq in E1, E2. subst. now rewrite Hb.
      - apply Hdone; try assumption. apply andb_false_iff in E.
        destruct E as [E|E]; apply Z.eqb_neq in E; lia. }
    split.
    { intros x y Hbx Hby Hd.
      destruct ((x =? j) && (y =? k)) eqn:E.
      - apply andb_true_iff in E. destruct E as [E1 E2].
        apply Z.eqb_eq in E1, E2. subst. exfalso. apply Hd. lia.
      - apply Htodo; try assumption. lia. }
    split; [|discriminate]. intros _. exists j, k. auto.
  - eexists. split; [reflexivity|].
    split; [exact Hx|]. split; [exact Hy|]. cbn [fst snd]. split.
    { intros x y Hbx Hby Hd.
      destruct (Z.eq_dec x j) as [->|Hne].
      - destruct (Z.eq_dec y k) as [->|Hne'].
        + rewrite Hb. apply Htodo; try assumption. lia.
        + apply Hdone; try assumption. lia.
      - apply Hdone; try assumption. lia. }
    split. { intros x y Hbx Hby Hd. apply Htodo; try assumption. lia. }
    split; [exact Ht|].
    intros Hs x y Hbx Hby Hd.
    destruct (Z.eq_dec x j) as [->|Hne].
    + destruct (Z.eq_dec y k) as [->|Hne']; [exact Hb|].
      apply Hf; try assumption. lia.
    + apply Hf; try assumption. lia.
Qed.

Lemma mark_rows (temp : PIL.image Z) :
  xsize temp = xsize image -> ysize temp = ysize image ->
  (forall x y, pixel temp x y = 0) ->
  exists st,
    for_each (range (height image))
      (fun st y_f =>
         for_each (range (width image))
           (fun (st : PIL.image Z * bool) x_f =>
              let '(dest, has_any) := st in
              p <- getitem (convert_RGB image) x_f y_f ;;
              if is_content threshold p
              then dest' <- setitem dest x_f y_f 255 ;; Ret (dest', true)
              else Ret (dest, has_any))
           st)
      (temp, false) = Ret st
    /\ mask_inv (fun _ _ => True) st.
Proof.
  intros Hx Hy Hzero.
  destruct (for_each_range_inv (fun k st => mask_inv (fun _ y => y < k) st)
              (fun st y_f =>
                 for_each (range (width image))
                   (fun (st : PIL.image Z * bool) x_f =>
                      let '(dest, has_any) := st in
                      p <- getitem (convert_RGB image) x_f y_f ;;
                      if is_content threshold p
                      then dest' <- setitem dest x_f y_f 255 ;; Ret (dest', true)
                      else Ret (dest, has_any))
                   st)
              (height image) (temp, false)) as (st & Hrun & Hinv).
  - split; [exact Hx|]. split; [exact Hy|]. cbn [fst snd]. split; [intros; lia|].
    split; [intros; apply Hzero|]. split; [discriminate|]. intros; lia.
  - intros k st Hk Hinv.
    destruct (for_each_range_inv
                (fun j st => mask_inv (fun x y => y < k \/ (y = k /\ x < j)) st)
                (fun (st : PIL.image Z * bool) x_f =>
                   let '(dest, has_any) := st in
                   p <- getitem (convert_RGB image) x_f k ;;
                   if is_content threshold p
                   then dest' <- setitem dest x_f k 255 ;; Ret (dest', true)
                   else Ret (dest, has_any))
                (width image) st) as (st' & Hrun & Hinv').
    + revert Hinv. apply mask_inv_ext. intros; lia.
    + intros j st0 Hj Hinv0. now apply mark_pixel_step.
    + exists st'. split; [exact Hrun|]. revert Hinv'. apply mask_inv_ext. intros; lia.
  - exists st. split; [exact Hrun|]. revert Hinv. apply mask_inv_ext. intros; lia.
Qed.

(** What [get_content_bounding_box] returns, for every image and threshold. *)
Lemma bounding_box_characterised :
  exists res, get_content_bounding_box image threshold = Ret res
    /\ match res with
       | None => forall x y, 0 <= x < width image -> 0 <= y < height image ->
                             background threshold (pixel image x y)
       | Some (x0, y0, x1, y1) =>
           (forall x y, 0 <= x < width image -> 0 <= y < height image ->
                        content threshold (pixel image x y) ->
                        x0 <= x < x1 /\ y0 <= y < y1)
           /\ (exists y, 0 <= y < height image /\ 0 <= x0 < width image
                         /\ content threshold (pixel image x0 y))
           /\ (exists y, 0 <= y < height image /\ 0 <= x1 - 1 < width image
                         /\ content threshold (pixel image (x1 - 1) y))
           /\ (exists x, 0 <= x < width image /\ 0 <= y0 < height image
                         /\ content threshold (pixel image x y0))
           /\ (exists x, 0 <= x < width image /\ 0 <= y1 - 1 < height image
                         /\ content threshold (pixel image x (y1 - 1)))
       end.
Proof.
  unfold get_content_bounding_box.
  destruct ((width image =? 0) || (height image =? 0)) eqn:Hempty.
  { exists None. split; [reflexivity|]. intros x y Hx Hy.
    apply orb_true_iff in Hempty. lia. }
  pose proof (width_nonneg image) as Hw. pose proof (height_nonneg image) as Hh.
  unfold PIL.new. replace (width image <? 0) with false by lia.
  replace (height image <? 0) with false by lia. cbn [orb Py.bind].
  destruct (mark_rows (Image (Z.to_N (width image)) (Z.to_N (height image)) (fun _ _ => 0)))
    as ([dest has_any] & Hrun & Hsx & Hsy & Hdone & _ & Ht & Hf).
  { cbn [xsize]. unfold width. lia. }
  { cbn [ysize]. unfold height. lia. }
  { reflexivity. }
  rewrite Hrun. cbn [Py.bind fst snd] in *.
  assert (Hwd : width dest = width image) by (unfold width; now rewrite Hsx).
  assert (Hhd : height dest = height image) by (unfold height; now rewrite Hsy).
  assert (Hnz : forall x y, 0 <= x < width image -> 0 <= y < height image ->
                            (pixel dest x y <> 0 <-> content threshold (pixel image x y))).
  { intros x y Hx Hy. rewrite (Hdone x y Hx Hy I). rewrite <- is_content_true.
    fold (bright x y). destruct (bright x y); split; (discriminate || congruence). }
  destruct has_any; cbn [negb].
  - eexists. split; [reflexivity|].
    pose proof (getbbox_spec dest) as Hbb. rewrite Hwd, Hhd in Hbb.
    destruct (getbbox dest) as [[[[x0 y0] x1] y1]|].
    + destruct Hbb as (Hbox & (ya & Hya & Hxa & Ha) & (yb & Hyb & Hxb & Hb)
                       & (xc & Hxc & Hyc & Hc) & (xd & Hxd & Hyd & Hd)).
      split. { intros x y Hx Hy Hc'. apply Hbox; try assumption. now apply Hnz. }
      split. { exists ya. split; [lia|]. split; [lia|]. now apply Hnz. }
      split. { exists yb. split; [lia|]. split; [lia|]. now apply Hnz. }
      split. { exists xc. split; [lia|]. split; [lia|]. now apply Hnz. }
      exists xd. split; [lia|]. split; [lia|]. now apply Hnz.
    + destruct (Ht eq_refl) as (x & y & Hx & Hy & Hb). exfalso.
      apply (proj2 (Hnz x y Hx Hy)); [|now apply Hbb].
      apply is_content_true. exact Hb.
  - exists None. split; [reflexivity|]. intros x y Hx Hy.
    apply is_content_false. apply (Hf eq_refl x y Hx Hy I).
Qed.

End ContentMask.

(** C3: [get_content_bounding_box] never raises; it returns [None] exactly
    when the image has no content pixel (no pixel with a colour channel above
    the threshold), in particular on every image of zero width or zero
    height; and when it returns a box [(x0, y0, x1, y1)] the box has positive
    area, lies in the image, every pixel outside it is background, and each
    of its four edges holds a content pixel. *)
Theorem C3_bounding_box_tight (image : PIL.image rgba) (threshold : Z) :
  exists res, get_content_bounding_box image threshold = Ret res
    /\ (res = None <->
        forall x y, 0 <= x < width image -> 0 <= y < height image ->
                    background threshold (pixel image x y))
    /\ (width image = 0 \/ height image = 0 -> res = None)
    /\ (forall x0 y0 x1 y1, res = Some (x0, y0, x1, y1) ->
        (0 <= x0 < x1 /\ x1 <= width image /\ 0 <= y0 < y1 /\ y1 <= height image)
        /\ (forall x y, 0 <= x < width image -> 0 <= y < height image ->
                        ~ (x0 <= x < x1 /\ y0 <= y < y1) ->
                        background threshold (pixel image x y))
        /\ (exists y, y0 <= y < y1 /\ content threshold (pixel image x0 y))
        /\ (exists y, y0 <= y < y1 /\ content threshold (pixel image (x1 - 1) y))
        /\ (exists x, x0 <= x < x1 /\ content threshold (pixel image x y0))
        /\ (exists x, x0 <= x < x1 /\ content threshold (pixel image x (y1 - 1)))).
Proof.
  destruct (bounding_box_characterised image threshold) as (res & Hrun & Hres).
  exists res. split; [exact Hrun|].
  assert (Hiff : res = None <->
                 forall x y, 0 <= x < width image -> 0 <= y < height image ->
                             background threshold (pixel image x y)).
  { destruct res as [[[[x0 y0] x1] y1]|].
    - split; [discriminate|]. intros Hall.
      destruct Hres as (_ & (y & Hy & Hx & Hc) & _).
      apply content_not_background in Hc. exfalso. apply Hc. now apply Hall.
    - split; [intros _; exact Hres|reflexivity]. }
  split; [exact Hiff|]. split.
  { intros Hzero. apply Hiff. intros x y Hx Hy. lia. }
  intros x0 y0 x1 y1 ->.
  destruct Hres as (Hbox & (ya & Hya & Hxa & Ha) & (yb & Hyb & Hxb & Hb)
                    & (xc & Hxc & Hyc & Hc) & (xd & Hxd & Hyd & Hd)).
  pose proof (Hbox _ _ Hxa Hya Ha) as Ba. pose proof (Hbox _ _ Hxb Hyb Hb) as Bb.
  pose proof (Hbox _ _ Hxc Hyc Hc) as Bc. pose proof (Hbox _ _ Hxd Hyd Hd) as Bd.
  split; [lia|]. split.
  { intros x y Hx Hy Hout.
    destruct (is_content threshold (first3 (pixel image x y))) eqn:E.
    - apply is_content_true in E. exfalso. apply Hout. now apply Hbox.
    - now apply is_content_false. }
  split; [exists ya; split; [lia|assumption]|].
  split; [exists yb; split; [lia|assumption]|].
  split; [exists xc; split; [lia|assumption]|].
  exists xd; split; [lia|assumption].
Qed.

(** ** Effective content extents *)

(** C4: for an extended-art card with overall content box [(x0, y0, x1, y1)]
    the effective vertical extent is [y0], [y1] unchanged and no error is
    raised.  The horizontal extent is the row extent sampled at row
    [y0 + EXTENDED_ART_SCAN_OFFSET_Y_PX] (leftmost and rightmost content
    column of that row); when the sample row lies outside the image, or holds
    no content pixel, the overall [x0], [x1] are kept and a warning is
    printed. *)
Theorem C4_extended_art_extents (cfg : config) (img : PIL.image rgba) (x0 y0 x1 y1 : Z) :
  let sample_y := y0 + EXTENDED_ART_SCAN_OFFSET_Y_PX cfg in
  let t := BLACK_BORDER_THRESHOLD cfg in
  exists cx0 cx1 out,
    effective_content_extents cfg img extended_art (Some (x0, y0, x1, y1))
    = (Ret (cx0, y0, cx1, y1), out)
    /\ (~ 0 <= sample_y < height img ->
        cx0 = x0 /\ cx1 = x1 /\ In (WarnSampleRowOutOfBounds sample_y) out)
    /\ (0 <= sample_y < height img ->
        (forall x, 0 <= x < width img -> background t (pixel img x sample_y)) ->
        cx0 = x0 /\ cx1 = x1 /\ In (WarnNoSideContent sample_y) out)
    /\ (0 <= sample_y < height img ->
        (exists x, 0 <= x < width img /\ content t (pixel img x sample_y)) ->
        get_content_extents_at_row img sample_y t = Ret (Some (cx0, cx1))
        /\ 0 <= cx0 <= cx1 /\ cx1 < width img
        /\ content t (pixel img cx0 sample_y) /\ content t (pixel img cx1 sample_y)
        /\ (forall x, 0 <= x < cx0 -> background t (pixel img x sample_y))
        /\ (forall x, cx1 < x < width img -> background t (pixel img x sample_y))).
Proof.
  intros sample_y t. unfold effective_content_extents, size. cbn [mbind mret].
  fold sample_y. fold t.
  destruct ((0 <=? sample_y) && (sample_y <? height img)) eqn:Hin.
  - assert (Hy : 0 <= sample_y < height img) by lia.
    destruct (extents_at_row_characterised img sample_y t Hy) as (res & Hrun & Hres).
    rewrite Hrun. unfold print, lift. cbn [mbind].
    destruct res as [[s e]|].
    + destruct Hres as (Hse & Hew & Hcs & Hce & Hleft & Hright).
      replace (s <=? e) with true by lia. cbn [mbind mret app].
      exists s, e. eexists. split; [reflexivity|].
      split; [intros Hout; lia|]. split.
      { intros _ Hall. exfalso. apply content_not_background in Hcs. apply Hcs.
        apply Hall. lia. }
      intros _ _. split; [reflexivity|]. split; [lia|]. split; [lia|].
      split; [exact Hcs|]. split; [exact Hce|]. split; assumption.
    + cbn [mbind mret app]. exists x0, x1. eexists. split; [reflexivity|].
      split; [intros Hout; lia|]. split.
      { intros _ _. split; [reflexivity|]. split; [reflexivity|]. cbn. auto. }
      intros _ (x & Hx & Hc). exfalso. apply content_not_background in Hc.
      apply Hc. now apply Hres.
  - unfold print. cbn [mbind mret app]. exists x0, x1. eexists. split; [reflexivity|].
    split.
    { intros _. split; [reflexivity|]. split; [reflexivity|]. cbn. auto. }
    split; intros Hy; lia.
Qed.


(** ** Rounding and back-projection *)

Ltac q_to_z H :=
  unfold Qle, Qlt, Qmult, Qminus, Qplus, Qopp, inject_Z in H; cbn [Qnum Qden] in H.

Lemma inject_Z_pos (d : Z) : 0 < d -> (0 < inject_Z d)%Q.
Proof. intros Hd. change 0%Q with (inject_Z 0). now rewrite <- Zlt_Qlt. Qed.

Lemma inject_Z_nonzero (d : Z) : d <> 0 -> ~ (inject_Z d == 0)%Q.
Proof. intros Hd H0. apply (inject_Z_injective d 0) in H0. contradiction. Qed.

(** [round] moves its argument by at most one half. *)
Lemma round_bounds (q : Q) :
  (inject_Z (Py.round q) - q <= 1 # 2)%Q /\ (q - inject_Z (Py.round q) <= 1 # 2)%Q.
Proof.
  unfold Py.round.
  pose proof (Qfloor_le q) as Hlo. pose proof (Qlt_floor q) as Hhi.
  rewrite inject_Z_plus in Hhi. change (inject_Z 1) with 1%Q in Hhi.
  destruct (Qcompare (q - inject_Z (Qfloor q)) (1 # 2)) eqn:E.
  - apply Qeq_alt in E. destruct (Z.even (Qfloor q)).
    + split; lra.
    + rewrite inject_Z_plus. change (inject_Z 1) with 1%Q. split; lra.
  - apply Qlt_alt in E. split; lra.
  - apply Qgt_alt in E. rewrite inject_Z_plus. change (inject_Z 1) with 1%Q. split; lra.
Qed.

(** The same bound for a quotient of integers, without fractions. *)
Lemma round_div_bounds (q : Q) (n d : Z) :
  0 < d -> (q == inject_Z n / inject_Z d)%Q ->
  2 * (Py.round q * d - n) <= d /\ 2 * (n - Py.round q * d) <= d.
Proof.
  intros Hd Hq. destruct (round_bounds q) as [H1 H2].
  set (k := Py.round q) in *.
  assert (Hn : (inject_Z n == q * inject_Z d)%Q).
  { rewrite Hq. field. apply inject_Z_nonzero. lia. }
  pose proof (inject_Z_pos d Hd) as Hdq.
  split.
  - assert (H : (2 * (inject_Z k * inject_Z d - inject_Z n) <= inject_Z d)%Q).
    { rewrite Hn. nra. }
    q_to_z H. lia.
  - assert (H : (2 * (inject_Z n - inject_Z k * inject_Z d) <= inject_Z d)%Q).
    { rewrite Hn. nra. }
    q_to_z H. lia.
Qed.

(** ** Floating-point rounding *)


Lemma pow2_pos (e : Z) : (0 < 2 ^ e)%Q.
Proof. apply Qpower_0_lt. reflexivity. Qed.



Lemma nearest_nonneg (prec : Z) (q : Q) : (0 <= q)%Q -> (0 <= Py.nearest prec q)%Q.
Proof.
  intros Hq. unfold Py.nearest. destruct q as [[|n|n] d]; cbn [Qnum].
  - apply Qle_refl.
  - unfold Py.nearest_pos. apply Qmult_le_0_compat; [|apply Qlt_le_weak, pow2_pos].
    destruct (round_bounds ((Z.pos n # d) * 2 ^ (- (Py.ilog2 (Z.pos n # d) - (prec - 1)))))
      as [_ H].
    set (t := ((Z.pos n # d) * 2 ^ (- (Py.ilog2 (Z.pos n # d) - (prec - 1))))%Q) in *.
    assert (Ht : (0 < t)%Q).
    { subst t. apply Qmult_lt_0_compat; [reflexivity|apply pow2_pos]. }
    assert (Hr : (-1 < inject_Z (Py.round t))%Q) by lra.
    change (-1)%Q with (inject_Z (-1)) in Hr. rewrite <- Zlt_Qlt in Hr.
    change 0%Q with (inject_Z 0). rewrite <- Zle_Qle. lia.
  - exfalso. unfold Qle in Hq. cbn in Hq. lia.
Qed.



Lemma float_nonneg (q : Q) : (0 <= q)%Q -> (0 <= Py.float q)%Q.
Proof. apply nearest_nonneg. Qed.





Lemma round_nonneg (q : Q) : (0 <= q)%Q -> 0 <= Py.round q.
Proof.
  intros Hq. unfold Py.round.
  assert (Hf : 0 <= Qfloor q).
  { change 0 with (Qfloor 0). now apply Qfloor_resp_le. }
  destruct (Qcompare _ _); [destruct (Z.even _)| |]; lia.
Qed.

Lemma scale_factor_nonneg (final_artwork content_len : Z) :
  0 <= final_artwork -> 0 <= content_len ->
  (0 <= scale_factor final_artwork content_len)%Q.
Proof.
  intros Hf Hc. unfold scale_factor. destruct (content_len =? 0); [apply Qle_refl|].
  apply float_nonneg. apply Qmult_le_0_compat.
  - change 0%Q with (inject_Z 0). now rewrite <- Zle_Qle.
  - apply Qinv_le_0_compat. change 0%Q with (inject_Z 0). now rewrite <- Zle_Qle.
Qed.

Lemma keep_orig_border_nonneg (border_px : Z) (scale : Q) :
  0 <= border_px -> (0 <= scale)%Q -> 0 <= keep_orig_border_px border_px scale.
Proof.
  intros Hb Hs. unfold keep_orig_border_px.
  destruct (negb (Qle_bool (Qabs scale) (Py.float 1e-6))); [|lia].
  apply round_nonneg, float_nonneg. apply Qmult_le_0_compat.
  - apply float_nonneg. change 0%Q with (inject_Z 0). now rewrite <- Zle_Qle.
  - now apply Qinv_le_0_compat.
Qed.



(** ** Border-normalising crop *)

Section BorderAccuracy.

Variable cfg : config.
Variables target_w target_h : Z.

Hypothesis borders_nonneg :
  0 <= BORDER_LEFT_PX cfg /\ 0 <= BORDER_RIGHT_PX cfg
  /\ 0 <= BORDER_TOP_PX cfg /\ 0 <= BORDER_BOTTOM_PX cfg.
Hypothesis borders_small :
  BORDER_LEFT_PX cfg <= 262144 /\ BORDER_RIGHT_PX cfg <= 262144
  /\ BORDER_TOP_PX cfg <= 262144 /\ BORDER_BOTTOM_PX cfg <= 262144.
Hypothesis artwork_w_pos :
  1 <= target_w - BORDER_LEFT_PX cfg - BORDER_RIGHT_PX cfg < 4294967296.
Hypothesis artwork_h_pos :
  1 <= target_h - BORDER_TOP_PX cfg - BORDER_BOTTOM_PX cfg < 4294967296.



End BorderAccuracy.

(** ** The monad of [resize_card] *)

Lemma returns_ret {A : Type} (a : A) (P : A -> Prop) : P a -> returns (mret a) P.
Proof. intros H. exists a, []. split; [reflexivity|exact H]. Qed.

Lemma returns_print (m : msg) (P : unit -> Prop) : P tt -> returns (print m) P.
Proof. intros H. exists tt, [m]. split; [reflexivity|exact H]. Qed.

Lemma returns_lift {A : Type} (c : exc A) (a : A) (P : A -> Prop) :
  c = Ret a -> P a -> returns (lift c) P.
Proof. intros -> H. exists a, []. split; [reflexivity|exact H]. Qed.

Lemma returns_bind {A B : Type} (m : M A) (k : A -> M B) (P : A -> Prop) (Q : B -> Prop) :
  returns m P -> (forall a, P a -> returns (k a) Q) -> returns (mbind m k) Q.
Proof.
  intros (a & out & -> & Ha) Hk. destruct (Hk a Ha) as (b & out' & Hb & HQ).
  exists b, (out ++ out'). unfold mbind. rewrite Hb. split; [reflexivity|exact HQ].
Qed.

Lemma returns_seq {B : Type} (m : msg) (k : M B) (Q : B -> Prop) :
  returns k Q -> returns (mbind (print m) (fun _ => k)) Q.
Proof.
  intros H. apply (returns_bind _ _ (fun _ => True)); [now apply returns_print|].
  intros _ _. exact H.
Qed.

Lemma returns_weaken {A : Type} (m : M A) (P Q : A -> Prop) :
  (forall a, P a -> Q a) -> returns m P -> returns m Q.
Proof. intros HPQ (a & out & Hm & Ha). exists a, out. split; [exact Hm|auto]. Qed.

(** ** Card renderer: every stage returns *)

Lemma effective_content_extents_returns (cfg : config) (img : PIL.image rgba)
  (ct : card_type) (bbox : option box) :
  returns (effective_content_extents cfg img ct bbox) (fun _ => True).
Proof.
  unfold effective_content_extents, size.
  apply (returns_bind _ _ (fun _ => True)).
  { destruct bbox; [now apply returns_ret|]. apply returns_seq. now apply returns_ret. }
  intros [[[cx0 cy0] cx1] cy1] _.
  destruct ct; try now apply returns_ret.
  destruct bbox; [|apply returns_seq; now apply returns_ret].
  destruct ((0 <=? cy0 + EXTENDED_ART_SCAN_OFFSET_Y_PX cfg)
            && (cy0 + EXTENDED_ART_SCAN_OFFSET_Y_PX cfg <? height img)) eqn:Hin.
  - apply returns_seq.
    destruct (extents_at_row_characterised img
                (cy0 + EXTENDED_ART_SCAN_OFFSET_Y_PX cfg) (BLACK_BORDER_THRESHOLD cfg))
      as (res & Hrun & _); [lia|].
    apply (returns_bind _ _ (fun _ => True)).
    { now apply (returns_lift _ res). }
    intros [[s e]|] _.
    + destruct (s <=? e); apply returns_seq; now apply returns_ret.
    + apply returns_seq; now apply returns_ret.
  - apply returns_seq; now apply returns_ret.
Qed.

Lemma border_adjusted_crop_returns (cfg : config) (img : PIL.image rgba) (ct : card_type)
  (effective : box) (target_w target_h : Z) :
  returns (border_adjusted_crop cfg img ct effective target_w target_h)
    (fun r => exists cropped, r = Some cropped).
Proof.
  unfold border_adjusted_crop, size. destruct effective as [[[cx0 cy0] cx1] cy1].
  apply (returns_bind _ _ (fun _ => True)).
  { destruct ct; (now apply returns_print) || (now apply returns_ret). }
  intros _ _.
  destruct ((cx1 - cx0 >? 0) && (cy1 - cy0 >? 0));
    [|apply returns_seq; apply returns_ret; eauto].
  destruct (proportional_crop_box cfg target_w target_h (width img) (height img)
              (cx0, cy0, cx1, cy1)) as [[[x0 y0] x1] y1].
  destruct ((x1 >? x0) && (y1 >? y0)) eqn:Hok.
  - destruct (crop_valid img x0 y0 x1 y1) as (cropped & Hc & _); [lia|lia|].
    apply (returns_bind _ _ (fun _ => True)); [now apply (returns_lift _ cropped)|].
    intros c _. apply returns_ret. eauto.
  - apply returns_seq.
    destruct ((cx0 >=? 0) && (cy0 >=? 0) && (cx1 >? cx0) && (cy1 >? cy0)) eqn:Hfb.
    + apply returns_seq.
      destruct (crop_valid img cx0 cy0 cx1 cy1) as (cropped & Hc & _); [lia|lia|].
      apply (returns_bind _ _ (fun _ => True)); [now apply (returns_lift _ cropped)|].
      intros c _. apply returns_ret. eauto.
    + apply returns_seq. apply returns_ret. eauto.
Qed.

Lemma resize_to_target_size (img : PIL.image rgba) (target_w target_h : Z) :
  1 <= target_w -> 1 <= target_h ->
  exists sized, resize_to_target img target_w target_h = Ret sized
                /\ width sized = target_w /\ height sized = target_h.
Proof.
  intros Hw Hh. unfold resize_to_target, resize.
  destruct ((width img =? target_w) && (height img =? target_h)) eqn:E; cbn [negb].
  - exists (copy img). split; [reflexivity|]. unfold copy. lia.
  - replace (target_w <? 1) with false by lia. replace (target_h <? 1) with false by lia.
    cbn [orb]. eexists. split; [reflexivity|]. unfold width, height. cbn [xsize ysize].
    lia.
Qed.

Lemma new_valid {P : Type} (w h : Z) (color : P) :
  0 <= w -> 0 <= h ->
  exists im, PIL.new w h color = Ret im /\ width im = w /\ height im = h.
Proof.
  intros Hw Hh. unfold PIL.new.
  replace (w <? 0) with false by lia. replace (h <? 0) with false by lia. cbn [orb].
  eexists. split; [reflexivity|]. unfold width, height. cbn [xsize ysize]. lia.
Qed.

(** The pre-resize image of the borderless branch, case by case. *)
Lemma full_art_crop_characterised (cfg : config) (img : PIL.image rgba) :
  let trim := FULL_ART_BOTTOM_CROP_PX cfg in
  exists cropped out, full_art_crop cfg img = (Ret cropped, out)
    /\ (trim <= 0 -> cropped = img)
    /\ (0 < trim -> height img <= trim -> 0 < height img ->
        width cropped = width img /\ height cropped = 1)
    /\ (0 < trim -> trim < height img -> 0 < width img ->
        width cropped = width img /\ height cropped = height img - trim)
    /\ (0 < trim -> trim < height img -> width img = 0 ->
        width cropped = 1 /\ height cropped = 1).
Proof.
  intros trim. unfold full_art_crop, size. fold trim.
  pose proof (width_nonneg img) as Hw. pose proof (height_nonneg img) as Hh.
  unfold mbind, print, lift, mret.
  destruct (trim >? 0) eqn:Ht.
  2:{ exists img. eexists. split; [reflexivity|]. split; [reflexivity|].
      repeat split; lia. }
  destruct (trim >=? height img) eqn:Hge.
  - destruct (height img >? 0) eqn:Hpos.
    + destruct (crop_valid img 0 0 (width img) 1) as (c & -> & Hcw & Hch & _); [lia|lia|].
      exists c. eexists. split; [reflexivity|]. repeat split; lia.
    + destruct (new_valid (Z.max 1 (width img)) 1 transparent) as (c & -> & Hcw & Hch);
        [lia|lia|].
      exists c. eexists. split; [reflexivity|]. repeat split; lia.
  - destruct (width img >? 0) eqn:Hwp.
    + destruct (crop_valid img 0 0 (width img) (Z.max 1 (height img - trim)))
        as (c & -> & Hcw & Hch & _); [lia|lia|].
      exists c. eexists. split; [reflexivity|]. repeat split; lia.
    + replace (width img =? 0) with true by lia.
      destruct (new_valid 1 1 transparent) as (c & -> & Hcw & Hch); [lia|lia|].
      exists c. eexists. split; [reflexivity|]. repeat split; lia.
Qed.

Lemma apply_enhancements_size (cfg : config) (img : PIL.image rgba) :
  width (apply_enhancements cfg img) = width img
  /\ height (apply_enhancements cfg img) = height img.
Proof.
  unfold apply_enhancements.
  destruct (negb (Qeq_bool (BRIGHTNESS_FACTOR cfg) 1.0)),
    (negb (Qeq_bool (SATURATION_FACTOR cfg) 1.0)); split; reflexivity.
Qed.

(** ** Full-bleed trim *)

(** C5: for every image of height [H > 0] and every configured bottom trim
    [T > 0] the borderless branch raises no error; when [T < H] the
    pre-resize image has height exactly [H - T] and the full original
    width, and when [T >= H] it has height exactly 1.  The image has a
    positive width, as every image that [Image.open] returns has: a file
    of width zero is refused there, before [resize_card] reads a size. *)
Theorem C5_full_bleed_trim (cfg : config) (img : PIL.image rgba) :
  0 < width img -> 0 < height img -> 0 < FULL_ART_BOTTOM_CROP_PX cfg ->
  exists cropped out, full_art_crop cfg img = (Ret cropped, out)
    /\ (FULL_ART_BOTTOM_CROP_PX cfg < height img ->
        height cropped = height img - FULL_ART_BOTTOM_CROP_PX cfg
        /\ width cropped = width img)
    /\ (FULL_ART_BOTTOM_CROP_PX cfg >= height img -> height cropped = 1).
Proof.
  intros Hw Hh Ht.
  destruct (full_art_crop_characterised cfg img)
    as (cropped & out & Hrun & _ & Hge & Hlt & _).
  exists cropped, out. split; [exact Hrun|]. split.
  - intros Hlow. destruct (Hlt Ht Hlow Hw) as [Hcw Hch]. split; assumption.
  - intros Hhigh. destruct (Hge Ht ltac:(lia) Hh) as [_ Hch]. exact Hch.
Qed.

Lemma C5_full_bleed_trim_witness :
  exists cropped out, full_art_crop module_config full_art_card = (Ret cropped, out)
    /\ (FULL_ART_BOTTOM_CROP_PX module_config < height full_art_card ->
        height cropped = height full_art_card - FULL_ART_BOTTOM_CROP_PX module_config
        /\ width cropped = width full_art_card)
    /\ (FULL_ART_BOTTOM_CROP_PX module_config >= height full_art_card ->
        height cropped = 1).
Proof.
  apply (C5_full_bleed_trim module_config full_art_card); reflexivity.
Defined.

(** ** Border accuracy of the rendered card *)




(** The overall content box of the extended-art sample. *)
Lemma print_resolution_extended_card_box :
  get_content_bounding_box print_resolution_extended_card 50
  = Ret (Some (0, 80, 1520, 2012)).
Proof.
  destruct (bounding_box_characterised print_resolution_extended_card 50)
    as (res & Hrun & Hres).
  rewrite Hrun. f_equal.
  assert (Hpix : forall x y, content 50 (pixel print_resolution_extended_card x y) ->
                             (80 <= x < 1439 /\ 80 <= y < 2012) \/ 1000 <= y < 1300).
  { intros x y. cbn [print_resolution_extended_card pixel].
    destruct (((80 <=? x) && (x <? 1439) && (80 <=? y) && (y <? 2012))
              || ((1000 <=? y) && (y <? 1300))) eqn:E.
    - intros _. apply orb_true_iff in E. destruct E as [E|E]; [left|right]; lia.
    - unfold content, black. cbn. lia. }
  assert (Hin : forall x y, (80 <= x < 1439 /\ 80 <= y < 2012) \/ 1000 <= y < 1300 ->
                            content 50 (pixel print_resolution_extended_card x y)).
  { intros x y H. cbn [print_resolution_extended_card pixel].
    replace (((80 <=? x) && (x <? 1439) && (80 <=? y) && (y <? 2012))
             || ((1000 <=? y) && (y <? 1300))) with true.
    - unfold content, white. cbn. lia.
    - symmetry. apply orb_true_iff. destruct H as [H|H]; [left|right]; lia. }
  change (width print_resolution_extended_card) with 1520 in Hres.
  change (height print_resolution_extended_card) with 2120 in Hres.
  destruct res as [[[[x0 y0] x1] y1]|].
  - destruct Hres as (Hbox & (ya & _ & Hx0 & _) & (yb & _ & Hx1 & _)
                      & (xc & _ & _ & Hc) & (xd & _ & _ & Hd)).
    pose proof (Hbox 0 1000 ltac:(lia) ltac:(lia) (Hin 0 1000 ltac:(lia))).
    pose proof (Hbox 1519 1000 ltac:(lia) ltac:(lia) (Hin 1519 1000 ltac:(lia))).
    pose proof (Hbox 80 80 ltac:(lia) ltac:(lia) (Hin 80 80 ltac:(lia))).
    pose proof (Hbox 80 2011 ltac:(lia) ltac:(lia) (Hin 80 2011 ltac:(lia))).
    apply Hpix in Hc, Hd.
    assert (x0 = 0 /\ y0 = 80 /\ x1 = 1520 /\ y1 = 2012) as (-> & -> & -> & ->) by lia.
    reflexivity.
  - exfalso. pose proof (Hin 100 100 ltac:(lia)) as Hc.
    apply content_not_background in Hc. apply Hc. apply Hres; lia.
Qed.

(** The pipeline on the extended-art sample: classified extended art, the
    sample row 222 has content on the columns 80..1438, and the effective
    box takes 1438, the last content column, as its right edge.  The crop
    box (9, 9, 1509, 2109) lies strictly inside the image and is half the
    card size; the right border, the columns 1439..1508, prints 140 pixels
    wide where 142 are configured. *)
Example extended_art_card_trace :
  determine_card_type print_resolution_extended_card 50 10 = Ret extended_art
  /\ effective_content_extents module_config print_resolution_extended_card extended_art
       (Some (0, 80, 1520, 2012))
     = (Ret (80, 80, 1438, 2012),
        [ExtendedArtScanning 222; ExtendedArtFoundSideContent 222 80 1438])
  /\ pixel print_resolution_extended_card 1438 222 = white
  /\ pixel print_resolution_extended_card 1439 222 = black
  /\ keep_orig_borders module_config CARD_WIDTH_PX CARD_HEIGHT_PX (80, 80, 1438, 2012)
     = (71, 71, 71, 97)
  /\ proportional_crop_box module_config CARD_WIDTH_PX CARD_HEIGHT_PX 1520 2120
       (80, 80, 1438, 2012) = (9, 9, 1509, 2109)
  /\ (printed_px (1509 - 1439) (1509 - 9) CARD_WIDTH_PX == 140)%Q
  /\ BORDER_RIGHT_PX module_config = 142.
Proof. vm_compute. repeat split. Qed.





(** ** The card renderer end to end *)

Lemma determine_card_type_returns (img : PIL.image rgba) (threshold e : Z) :
  exists ct, determine_card_type img threshold e = Ret ct.
Proof.
  destruct (Z_lt_le_dec (height img) 20) as [Hsmall|Hbig].
  - exists borderless. now apply determine_card_type_small.
  - destruct (determine_card_type_zones img threshold e Hbig)
      as (_ & _ & tb & mb & _ & _ & _ & _ & Hres).
    eexists. exact Hres.
Qed.

Lemma sized_branch_returns (cfg : config) (img : PIL.image rgba) (ct : card_type)
  (effective : box) (target_w target_h : Z) :
  1 <= target_w -> 1 <= target_h ->
  returns
    (match ct with
     | standard | extended_art =>
         img_to_final_resize <-
           border_adjusted_crop cfg img ct effective target_w target_h ;;
         match img_to_final_resize with
         | Some cropped =>
             sized <- lift (resize_to_target cropped target_w target_h) ;;
             mret (Some sized)
         | None => mret None
         end
     | borderless =>
         img_for_full_art_processing <- full_art_crop cfg img ;;
         sized <- lift (resize_to_target img_for_full_art_processing target_w target_h) ;;
         mret (Some sized)
     end)%io
    (fun r => exists sized, r = Some sized
                            /\ width sized = target_w /\ height sized = target_h).
Proof.
  intros Hw Hh.
  assert (Hcrop : returns
            (img_to_final_resize <-
               border_adjusted_crop cfg img ct effective target_w target_h ;;
             match img_to_final_resize with
             | Some cropped =>
                 sized <- lift (resize_to_target cropped target_w target_h) ;;
                 mret (Some sized)
             | None => mret None
             end)%io
            (fun r => exists sized, r = Some sized
                                    /\ width sized = target_w /\ height sized = target_h)).
  { eapply returns_bind; [apply border_adjusted_crop_returns|].
    intros r (cropped & ->).
    destruct (resize_to_target_size cropped target_w target_h Hw Hh)
      as (sized & Hres & Hsw & Hsh).
    eapply returns_bind; [apply (returns_lift _ sized (fun s => s = sized) Hres eq_refl)|].
    intros s ->. apply returns_ret. eauto. }
  destruct ct; try exact Hcrop.
  destruct (full_art_crop_characterised cfg img) as (cropped & out & Hrun & _).
  eapply (returns_bind _ _ (fun _ => True)).
  { exists cropped, out. split; [exact Hrun|exact I]. }
  intros c _.
  destruct (resize_to_target_size c target_w target_h Hw Hh) as (sized & Hres & Hsw & Hsh).
  eapply returns_bind; [apply (returns_lift _ sized (fun s => s = sized) Hres eq_refl)|].
  intros s ->. apply returns_ret. eauto.
Qed.

(** Once the file is decoded, the body of the [try] returns a card of the
    target size. *)
Lemma resize_card_try_returns (cfg : config) (files : disk) (image_path : string)
  (img : PIL.image rgba) (target_w target_h : Z) :
  files image_path = Ret img -> 1 <= target_w -> 1 <= target_h ->
  returns (resize_card_try cfg files image_path target_w target_h)
    (fun card => width card = target_w /\ height card = target_h).
Proof.
  intros Hfile Hw Hh. unfold resize_card_try.
  eapply returns_bind; [apply (returns_lift _ img (fun i => i = img) Hfile eq_refl)|].
  intros original_img ->. unfold size. apply returns_seq.
  eapply (returns_bind _ _ (fun _ => True)).
  { destruct (FORCE_STANDARD_FRAME_TYPE cfg).
    - apply returns_seq. now apply returns_ret.
    - destruct (determine_card_type_returns img (BLACK_BORDER_THRESHOLD cfg)
                  (EDGE_ZONE_CHECK_WIDTH_PX cfg)) as (ct & Hct).
      eapply (returns_bind _ _ (fun _ => True)); [now apply (returns_lift _ ct)|].
      intros t _. apply returns_seq. now apply returns_ret. }
  intros ct _.
  destruct (bounding_box_characterised img (BLACK_BORDER_THRESHOLD cfg)) as (bbox & Hbb & _).
  eapply (returns_bind _ _ (fun _ => True)); [now apply (returns_lift _ bbox)|].
  intros overall _.
  eapply returns_bind; [apply effective_content_extents_returns|].
  intros effective _.
  eapply returns_bind; [apply sized_branch_returns; assumption|].
  intros r (sized & -> & Hsw & Hsh).
  eapply returns_bind; [apply (returns_ret sized (fun s => s = sized) eq_refl)|].
  intros s ->. apply returns_seq. apply returns_ret.
  destruct (apply_enhancements_size cfg sized) as [Ew Eh]. lia.
Qed.

(** C6: for every path, [resize_card] called with the card size returns
    [None] exactly when opening or decoding the file raised (the file is
    missing or the image cannot be decoded); for every decoded image it
    returns a card whose size is exactly [CARD_WIDTH_PX] x [CARD_HEIGHT_PX].
    Being a total function of its inputs, it lets no exception escape. *)
Theorem C6_resize_card_total (cfg : config) (files : disk) (image_path : string) :
  let result := fst (resize_card cfg files image_path CARD_WIDTH_PX CARD_HEIGHT_PX) in
  (result = None <-> exists e, files image_path = Raise e)
  /\ (forall img, files image_path = Ret img ->
      exists card, result = Some card
                   /\ width card = CARD_WIDTH_PX /\ height card = CARD_HEIGHT_PX).
Proof.
  intros result. subst result.
  destruct (files image_path) as [img|e] eqn:Hfile.
  - destruct (resize_card_try_returns cfg files image_path img
                CARD_WIDTH_PX CARD_HEIGHT_PX Hfile)
      as (card & out & Hrun & Hcw & Hch);
      [unfold CARD_WIDTH_PX; lia|unfold CARD_HEIGHT_PX; lia|].
    unfold resize_card. rewrite Hrun. cbn [fst]. split.
    + split; [discriminate|]. intros (e & He). discriminate.
    + intros img' _. exists card. split; [reflexivity|]. split; assumption.
  - assert (Hrun : resize_card_try cfg files image_path CARD_WIDTH_PX CARD_HEIGHT_PX
                   = (Raise e, [])).
    { unfold resize_card_try. rewrite Hfile. reflexivity. }
    unfold resize_card. rewrite Hrun. split.
    + split; [intros _; exists e; reflexivity|]. intros _. destruct e; reflexivity.
    + intros img' Himg. discriminate.
Qed.

(** * Further properties of the code *)

(** ** Row scan outside the image *)

Lemma range_starts_at_zero (n : Z) : 0 < n -> exists rest, range n = 0 :: rest.
Proof.
  intros Hn. unfold range. destruct (Z.to_nat n) as [|k] eqn:E; [lia|].
  simpl. eexists. reflexivity.
Qed.

(** X1: a sample row at or below the bottom edge is not clamped: on an
    image of positive width the first pixel read raises [IndexError]; only an
    image of zero width, where no pixel is read, gives [(None, None)]. *)
Theorem row_scan_below_image (img : PIL.image rgba) (y_row threshold : Z) :
  height img <= y_row ->
  (0 < width img -> get_content_extents_at_row img y_row threshold = Raise IndexError)
  /\ (width img = 0 -> get_content_extents_at_row img y_row threshold = Ret None).
Proof.
  intros Hy. unfold get_content_extents_at_row. split.
  - intros Hw. destruct (range_starts_at_zero (width img) Hw) as (rest & ->).
    cbn [first_hit]. unfold getitem, inside.
    pose proof (height_nonneg img) as Hh.
    replace (y_row <? 0) with false by lia.
    replace (y_row <? height img) with false by lia.
    rewrite andb_false_r. reflexivity.
  - intros Hw. rewrite Hw. reflexivity.
Qed.

Lemma row_scan_below_image_witness :
  (0 < width small_framed_card ->
   get_content_extents_at_row small_framed_card 30 50 = Raise IndexError)
  /\ (width small_framed_card = 0 ->
      get_content_extents_at_row small_framed_card 30 50 = Ret None).
Proof.
  apply (row_scan_below_image small_framed_card 30 50). vm_compute. congruence.
Defined.

(** ** Row extents against the overall box *)

(** X2: the two detectors agree: when the overall box is [(x0, y0, x1, y1)]
    and an in-bounds row has extent [(start_x, end_x)], the row lies between
    [y0] and [y1] and [x0 <= start_x <= end_x < x1]; so the width
    [end_x - start_x] the extended-art path uses is at least one pixel less
    than the width of the overall box. *)
Theorem row_extent_inside_bounding_box (img : PIL.image rgba) (threshold y_row : Z)
  (x0 y0 x1 y1 start_x end_x : Z) :
  0 <= y_row < height img ->
  get_content_bounding_box img threshold = Ret (Some (x0, y0, x1, y1)) ->
  get_content_extents_at_row img y_row threshold = Ret (Some (start_x, end_x)) ->
  y0 <= y_row < y1 /\ x0 <= start_x <= end_x /\ end_x < x1
  /\ end_x - start_x < x1 - x0.
Proof.
  intros Hy Hbox Hrow.
  destruct (bounding_box_characterised img threshold) as (res & Hb & Hres).
  rewrite Hbox in Hb. injection Hb as <-. destruct Hres as (Hin & _).
  destruct (extents_at_row_characterised img y_row threshold Hy) as (r & Hr & Hrow').
  rewrite Hrow in Hr. injection Hr as <-.
  destruct Hrow' as (Hse & Hew & Hcs & Hce & _).
  pose proof (Hin start_x y_row ltac:(lia) Hy Hcs) as H1.
  pose proof (Hin end_x y_row ltac:(lia) Hy Hce) as H2. lia.
Qed.

Lemma row_extent_inside_bounding_box_witness :
  12 <= 15 < 22 /\ 10 <= 10 <= 19 /\ 19 < 20 /\ 19 - 10 < 20 - 10.
Proof.
  apply (row_extent_inside_bounding_box small_framed_card 50 15 10 12 20 22 10 19).
  - vm_compute. split; [discriminate|reflexivity].
  - vm_compute. reflexivity.
  - vm_compute. reflexivity.
Defined.

(** X3: when the overall detector finds no content, no in-bounds row has
    any: the row scan returns [(None, None)] on each of them. *)
Theorem no_bounding_box_no_row_extent (img : PIL.image rgba) (threshold y_row : Z) :
  0 <= y_row < height img ->
  get_content_bounding_box img threshold = Ret None ->
  get_content_extents_at_row img y_row threshold = Ret None.
Proof.
  intros Hy Hbox.
  destruct (bounding_box_characterised img threshold) as (res & Hb & Hres).
  rewrite Hbox in Hb. injection Hb as <-.
  destruct (extents_at_row_characterised img y_row threshold Hy) as (r & Hr & Hrow).
  rewrite Hr. destruct r as [[s e]|]; [|reflexivity]. exfalso.
  destruct Hrow as (Hse & Hew & Hcs & _).
  apply content_not_background in Hcs. apply Hcs. apply Hres; lia.
Qed.

Lemma no_bounding_box_no_row_extent_witness :
  get_content_extents_at_row black_card 7 50 = Ret None.
Proof.
  apply (no_bounding_box_no_row_extent black_card 50 7).
  - vm_compute. split; [discriminate|reflexivity].
  - vm_compute. reflexivity.
Defined.

(** ** Threshold *)

Lemma content_antitone (t t' : Z) (p : rgba) : t <= t' -> content t' p -> content t p.
Proof. unfold content. lia. Qed.

(** X4: raising the threshold can only shrink the content box: for
    [t <= t'], when the box at [t'] exists then the box at [t] exists and
    contains it. *)
Theorem bounding_box_shrinks_with_threshold (img : PIL.image rgba) (t t' : Z)
  (inner : box) :
  t <= t' ->
  get_content_bounding_box img t' = Ret (Some inner) ->
  exists outer, get_content_bounding_box img t = Ret (Some outer)
                /\ box_within inner outer.
Proof.
  intros Ht Hinner. destruct inner as [[[a0 b0] a1] b1].
  destruct (bounding_box_characterised img t') as (r' & Hr' & Hres').
  rewrite Hinner in Hr'. injection Hr' as <-.
  destruct Hres' as (Hin' & (ya & Hya & Hxa & Ha) & (yb & Hyb & Hxb & Hb)
                     & (xc & Hxc & Hyc & Hc) & (xd & Hxd & Hyd & Hd)).
  destruct (bounding_box_characterised img t) as (r & Hr & Hres).
  destruct r as [[[[x0 y0] x1] y1]|].
  - exists (x0, y0, x1, y1). split; [exact Hr|]. destruct Hres as (Hin & _).
    pose proof (Hin _ _ Hxa Hya (content_antitone t t' _ Ht Ha)).
    pose proof (Hin _ _ Hxb Hyb (content_antitone t t' _ Ht Hb)).
    pose proof (Hin _ _ Hxc Hyc (content_antitone t t' _ Ht Hc)).
    pose proof (Hin _ _ Hxd Hyd (content_antitone t t' _ Ht Hd)).
    unfold box_within. lia.
  - exfalso. apply (content_antitone t t' _ Ht) in Ha.
    apply content_not_background in Ha. apply Ha. now apply Hres.
Qed.

Lemma bounding_box_shrinks_with_threshold_witness :
  exists outer, get_content_bounding_box small_framed_card 50 = Ret (Some outer)
                /\ box_within (10, 12, 20, 22) outer.
Proof.
  apply (bounding_box_shrinks_with_threshold small_framed_card 50 200 (10, 12, 20, 22)).
  - lia.
  - vm_compute. reflexivity.
Defined.

(** ** The classifier in terms of the pixels of the image *)

(** The check on a zone cropped from inside the image reads the side bands
    of the image itself. *)
Lemma zone_check_reads_image (img : PIL.image rgba) (threshold e y0 y1 : Z) :
  0 <= y0 < y1 -> y1 <= height img ->
  exists zone b,
    crop img (0, y0, width img, y1) = Ret zone
    /\ check_strip_for_solid_lr_border zone e threshold = Ret b
    /\ (b = true <-> 2 * e <= width img /\ 0 < e
                     /\ side_bands_dark img threshold e y0 y1).
Proof.
  intros Hy Hh. pose proof (width_nonneg img) as Hw.
  destruct (crop_valid img 0 y0 (width img) y1) as (zone & Hc & Hzw & Hzh & Hpx);
    [lia|lia|].
  rewrite Z.sub_0_r in Hzw, Hpx.
  destruct (check_strip_characterised zone threshold e) as (b & Hrun & Hb).
  exists zone, b. split; [exact Hc|]. split; [exact Hrun|].
  assert (Hread : forall x y, 0 <= x < width img -> 0 <= y < y1 - y0 ->
                              pixel zone x y = pixel img x (y0 + y)).
  { intros x y Hx Hy'. rewrite Hpx by assumption. unfold inside.
    replace (0 <=? 0 + x) with true by lia. replace (0 + x <? width img) with true by lia.
    replace (0 <=? y0 + y) with true by lia. replace (y0 + y <? height img) with true by lia.
    cbn [andb]. reflexivity. }
  rewrite Hb, Hzw, Hzh. unfold columns_dark, side_bands_dark. rewrite Hzh. split.
  - intros (_ & Hwide & He & Hl & Hr). split; [exact Hwide|]. split; [exact He|].
    intros x y Hy' Hx. replace y with (y0 + (y - y0)) by lia.
    rewrite <- Hread by lia. destruct Hx as [Hx|Hx]; [apply Hl|apply Hr]; lia.
  - intros (Hwide & He & Hbands). split; [lia|]. split; [exact Hwide|].
    split; [exact He|]. split.
    + intros x y Hx Hy'. rewrite Hread by lia. apply Hbands; [lia|left; lia].
    + intros x y Hx Hy'. rewrite Hread by lia. apply Hbands; [lia|right; lia].
Qed.

(** X5: for an image at least 20 pixels high and an edge width whose minimum
    zone height fits into the image, the class is decided by the pixels of
    the image itself: with [top] the rows of the top zone and [middle] those
    of the middle zone, the answer is [standard] iff the image is at least
    [2 * edge_width] wide, the edge width is positive and the side bands of
    both zones are background; [extended_art] iff that holds for the top
    zone and fails for the middle zone. *)
Theorem classification_reads_side_bands (img : PIL.image rgba) (threshold e : Z) :
  20 <= height img -> min_zone_height e <= height img ->
  let '(_, top_y0, _, top_y1) := top_zone_box (width img) (height img) e in
  let '(_, mid_y0, _, mid_y1) := middle_zone_box (width img) (height img) e in
  let wide := 2 * e <= width img /\ 0 < e in
  (determine_card_type img threshold e = Ret standard <->
   wide /\ side_bands_dark img threshold e top_y0 top_y1
   /\ side_bands_dark img threshold e mid_y0 mid_y1)
  /\ (determine_card_type img threshold e = Ret extended_art <->
      wide /\ side_bands_dark img threshold e top_y0 top_y1
      /\ ~ side_bands_dark img threshold e mid_y0 mid_y1).
Proof.
  intros Hh Hfit.
  pose proof (middle_zone_within_image (width img) (height img) e Hh Hfit) as Hmid.
  unfold determine_card_type, size. replace (height img <? 20) with false by lia.
  destruct (middle_zone_box (width img) (height img) e) as [[[mx0 my0] mx1] my1].
  destruct Hmid as (-> & -> & Hm0 & Hm1 & Hm2).
  unfold top_zone_box. rewrite int_scaled by lia.
  set (th := Z.max (min_zone_height e) (height img * 5 / 100)).
  assert (Hth : 0 < th <= height img).
  { pose proof (min_zone_height_pos e). subst th.
    assert (height img * 5 / 100 <= height img) by div_lia. lia. }
  destruct (zone_check_reads_image img threshold e 0 th) as (tz & tb & Htc & Htr & Htb);
    [lia|lia|].
  destruct (zone_check_reads_image img threshold e my0 my1) as (mz & mb & Hmc & Hmr & Hmb);
    [lia|lia|].
  rewrite Htc, Hmc. cbn [Py.bind]. rewrite Htr, Hmr. cbn [Py.bind].
  cbv zeta.
  destruct tb, mb; cbn [andb negb]; intuition congruence.
Qed.

Lemma classification_reads_side_bands_witness :
  let '(_, top_y0, _, top_y1) := top_zone_box 30 30 10 in
  let '(_, mid_y0, _, mid_y1) := middle_zone_box 30 30 10 in
  let wide := 2 * 10 <= width small_framed_card /\ 0 < 10 in
  (determine_card_type small_framed_card 50 10 = Ret standard <->
   wide /\ side_bands_dark small_framed_card 50 10 top_y0 top_y1
   /\ side_bands_dark small_framed_card 50 10 mid_y0 mid_y1)
  /\ (determine_card_type small_framed_card 50 10 = Ret extended_art <->
      wide /\ side_bands_dark small_framed_card 50 10 top_y0 top_y1
      /\ ~ side_bands_dark small_framed_card 50 10 mid_y0 mid_y1).
Proof.
  apply (classification_reads_side_bands small_framed_card 50 10).
  - vm_compute. discriminate.
  - vm_compute. discriminate.
Defined.

(** X6: an image narrower than twice the edge width, or checked with an
    edge width that is not positive, is never classified as framed: the
    answer is [borderless] whatever its pixels are. *)
Theorem narrow_image_is_borderless (img : PIL.image rgba) (threshold e : Z) :
  width img < 2 * e \/ e <= 0 ->
  determine_card_type img threshold e = Ret borderless.
Proof.
  intros Hnarrow.
  destruct (Z_lt_le_dec (height img) 20) as [Hsmall|Hbig].
  { now apply determine_card_type_small. }
  unfold determine_card_type, size. replace (height img <? 20) with false by lia.
  pose proof (width_nonneg img) as Hw.
  destruct (top_zone_box_shape (width img) (height img) e) as (th & -> & Hth); [lia|].
  destruct (middle_zone_box_shape (width img) (height img) e)
    as (mt & mh & -> & Hmt & Hmh); [lia|].
  destruct (crop_valid img 0 0 (width img) th) as (tz & -> & Htw & _); [lia|lia|].
  destruct (crop_valid img 0 mt (width img) (mt + mh)) as (mz & -> & _); [lia|lia|].
  cbn [Py.bind].
  destruct (check_strip_characterised tz threshold e) as (tb & Htb & Htrue).
  destruct (check_strip_characterised mz threshold e) as (mb & Hmb & _).
  rewrite Htb, Hmb. cbn [Py.bind].
  destruct tb; [|reflexivity]. exfalso.
  destruct (proj1 Htrue eq_refl) as (_ & Hwide & He & _). lia.
Qed.

Lemma narrow_image_is_borderless_witness :
  determine_card_type small_framed_card 50 16 = Ret borderless.
Proof.
  apply (narrow_image_is_borderless small_framed_card 50 16).
  left. vm_compute. reflexivity.
Defined.

(** ** The proportional crop never cuts into the content box *)

(** With non-negative borders, the crop rectangle of a content box that
    lies in the image lies in the image and contains the content box. *)
Lemma proportional_crop_box_contains (cfg : config) (target_w target_h w h : Z)
  (cx0 cy0 cx1 cy1 : Z) :
  0 <= BORDER_LEFT_PX cfg -> 0 <= BORDER_RIGHT_PX cfg ->
  0 <= BORDER_TOP_PX cfg -> 0 <= BORDER_BOTTOM_PX cfg ->
  0 <= cx0 <= cx1 -> cx1 <= w -> 0 <= cy0 <= cy1 -> cy1 <= h ->
  let '(x0, y0, x1, y1) :=
    proportional_crop_box cfg target_w target_h w h (cx0, cy0, cx1, cy1) in
  0 <= x0 <= cx0 /\ cx1 <= x1 <= w /\ 0 <= y0 <= cy0 /\ cy1 <= y1 <= h.
Proof.
  intros Hl Hr Ht Hb Hx Hxw Hy Hyh. unfold proportional_crop_box, keep_orig_borders.
  set (sw := scale_factor _ (cx1 - cx0)). set (sh := scale_factor _ (cy1 - cy0)).
  assert (Hsw : (0 <= sw)%Q) by (apply scale_factor_nonneg; lia).
  assert (Hsh : (0 <= sh)%Q) by (apply scale_factor_nonneg; lia).
  pose proof (keep_orig_border_nonneg _ sw Hl Hsw).
  pose proof (keep_orig_border_nonneg _ sw Hr Hsw).
  pose proof (keep_orig_border_nonneg _ sh Ht Hsh).
  pose proof (keep_orig_border_nonneg _ sh Hb Hsh).
  lia.
Qed.

(** The standard branch on a content box of positive size inside the image:
    it crops to the proportional rectangle and prints no warning. *)
Lemma standard_crop_without_fallback (cfg : config) (img : PIL.image rgba)
  (target_w target_h cx0 cy0 cx1 cy1 : Z) :
  0 <= BORDER_LEFT_PX cfg -> 0 <= BORDER_RIGHT_PX cfg ->
  0 <= BORDER_TOP_PX cfg -> 0 <= BORDER_BOTTOM_PX cfg ->
  0 <= cx0 < cx1 -> cx1 <= width img -> 0 <= cy0 < cy1 -> cy1 <= height img ->
  exists cropped x0 y0 x1 y1,
    proportional_crop_box cfg target_w target_h (width img) (height img)
      (cx0, cy0, cx1, cy1) = (x0, y0, x1, y1)
    /\ border_adjusted_crop cfg img standard (cx0, cy0, cx1, cy1) target_w target_h
       = (Ret (Some cropped), [ActionStandard])
    /\ (0 <= x0 <= cx0 /\ cx1 <= x1 <= width img
        /\ 0 <= y0 <= cy0 /\ cy1 <= y1 <= height img)
    /\ width cropped = x1 - x0 /\ height cropped = y1 - y0
    /\ forall x y, x0 <= x < x1 -> y0 <= y < y1 ->
                   pixel cropped (x - x0) (y - y0) = pixel img x y.
Proof.
  intros Hl Hr Ht Hb Hx Hxw Hy Hyh.
  pose proof (proportional_crop_box_contains cfg target_w target_h (width img) (height img)
                cx0 cy0 cx1 cy1 Hl Hr Ht Hb ltac:(lia) Hxw ltac:(lia) Hyh) as Hin.
  unfold border_adjusted_crop, size.
  destruct (proportional_crop_box cfg target_w target_h (width img) (height img)
              (cx0, cy0, cx1, cy1)) as [[[x0 y0] x1] y1].
  destruct (crop_valid img x0 y0 x1 y1) as (cropped & Hc & Hcw & Hch & Hpx); [lia|lia|].
  exists cropped, x0, y0, x1, y1. split; [reflexivity|].
  replace (cx1 - cx0 >? 0) with true by lia. replace (cy1 - cy0 >? 0) with true by lia.
  replace (x1 >? x0) with true by lia. replace (y1 >? y0) with true by lia.
  cbn [andb]. rewrite Hc. unfold mbind, print, lift, mret. cbn [app].
  split; [reflexivity|]. split; [exact Hin|]. split; [exact Hcw|]. split; [exact Hch|].
  intros x y Hx' Hy'. rewrite Hpx by lia. unfold inside.
  replace (x0 + (x - x0)) with x by lia. replace (y0 + (y - y0)) with y by lia.
  replace (0 <=? x) with true by lia. replace (x <? width img) with true by lia.
  replace (0 <=? y) with true by lia. replace (y <? height img) with true by lia.
  reflexivity.
Qed.

(** X7: with non-negative configured borders, a standard card whose overall
    content box was found is cropped without any fallback or warning, the
    crop rectangle lies in the image, and every content pixel of the image
    lies in the rectangle and appears unchanged in the pre-resize crop: the
    border normalisation never cuts artwork off a standard card. *)
Theorem standard_crop_keeps_content (cfg : config) (img : PIL.image rgba)
  (target_w target_h : Z) (bbox : box) :
  0 <= BORDER_LEFT_PX cfg /\ 0 <= BORDER_RIGHT_PX cfg
  /\ 0 <= BORDER_TOP_PX cfg /\ 0 <= BORDER_BOTTOM_PX cfg ->
  get_content_bounding_box img (BLACK_BORDER_THRESHOLD cfg) = Ret (Some bbox) ->
  exists cropped x0 y0 x1 y1,
    effective_content_extents cfg img standard (Some bbox) = (Ret bbox, [])
    /\ proportional_crop_box cfg target_w target_h (width img) (height img) bbox
       = (x0, y0, x1, y1)
    /\ border_adjusted_crop cfg img standard bbox target_w target_h
       = (Ret (Some cropped), [ActionStandard])
    /\ (0 <= x0 /\ x1 <= width img /\ 0 <= y0 /\ y1 <= height img)
    /\ forall x y, 0 <= x < width img -> 0 <= y < height img ->
                   content (BLACK_BORDER_THRESHOLD cfg) (pixel img x y) ->
                   (x0 <= x < x1 /\ y0 <= y < y1)
                   /\ pixel cropped (x - x0) (y - y0) = pixel img x y.
Proof.
  intros (Hl & Hr & Ht & Hb) Hbox.
  destruct (bounding_box_characterised img (BLACK_BORDER_THRESHOLD cfg))
    as (res & Hrun & Hres).
  rewrite Hbox in Hrun. injection Hrun as <-. destruct bbox as [[[cx0 cy0] cx1] cy1].
  destruct Hres as (Hin & (ya & Hya & Hxa & Ha) & (yb & Hyb & Hxb & Hbb)
                    & (xc & Hxc & Hyc & Hc) & (xd & Hxd & Hyd & Hd)).
  pose proof (Hin _ _ Hxa Hya Ha). pose proof (Hin _ _ Hxb Hyb Hbb).
  pose proof (Hin _ _ Hxc Hyc Hc). pose proof (Hin _ _ Hxd Hyd Hd).
  destruct (standard_crop_without_fallback cfg img target_w target_h cx0 cy0 cx1 cy1
              Hl Hr Ht Hb) as (cropped & x0 & y0 & x1 & y1 & Hpb & Hcrop & Hcont & _ & _ & Hpx);
    [lia|lia|lia|lia|].
  exists cropped, x0, y0, x1, y1.
  split; [reflexivity|]. split; [exact Hpb|]. split; [exact Hcrop|]. split; [lia|].
  intros x y Hx Hy Hcontent. pose proof (Hin x y Hx Hy Hcontent) as Hxy.
  split; [lia|]. apply Hpx; lia.
Qed.

Lemma standard_crop_keeps_content_witness :
  exists cropped x0 y0 x1 y1,
    effective_content_extents module_config small_framed_card standard
      (Some (10, 12, 20, 22)) = (Ret (10, 12, 20, 22), [])
    /\ proportional_crop_box module_config CARD_WIDTH_PX CARD_HEIGHT_PX
         (width small_framed_card) (height small_framed_card) (10, 12, 20, 22)
       = (x0, y0, x1, y1)
    /\ border_adjusted_crop module_config small_framed_card standard (10, 12, 20, 22)
         CARD_WIDTH_PX CARD_HEIGHT_PX = (Ret (Some cropped), [ActionStandard])
    /\ (0 <= x0 /\ x1 <= width small_framed_card
        /\ 0 <= y0 /\ y1 <= height small_framed_card)
    /\ forall x y, 0 <= x < width small_framed_card ->
                   0 <= y < height small_framed_card ->
                   content (BLACK_BORDER_THRESHOLD module_config)
                     (pixel small_framed_card x y) ->
                   (x0 <= x < x1 /\ y0 <= y < y1)
                   /\ pixel cropped (x - x0) (y - y0) = pixel small_framed_card x y.
Proof.
  apply (standard_crop_keeps_content module_config small_framed_card
           CARD_WIDTH_PX CARD_HEIGHT_PX (10, 12, 20, 22)).
  - cbn. lia.
  - vm_compute. reflexivity.
Defined.

(** X8: when no content box was found on an image of positive size, the
    standard branch warns once, takes the whole image as content, and its
    pre-resize crop is the whole image, pixel for pixel. *)
Theorem blank_standard_card_is_kept_whole (cfg : config) (img : PIL.image rgba)
  (target_w target_h : Z) :
  0 <= BORDER_LEFT_PX cfg /\ 0 <= BORDER_RIGHT_PX cfg
  /\ 0 <= BORDER_TOP_PX cfg /\ 0 <= BORDER_BOTTOM_PX cfg ->
  0 < width img -> 0 < height img ->
  exists cropped,
    effective_content_extents cfg img standard None
    = (Ret (0, 0, width img, height img), [WarnNoOverallContent])
    /\ border_adjusted_crop cfg img standard (0, 0, width img, height img)
         target_w target_h = (Ret (Some cropped), [ActionStandard])
    /\ width cropped = width img /\ height cropped = height img
    /\ forall x y, 0 <= x < width img -> 0 <= y < height img ->
                   pixel cropped x y = pixel img x y.
Proof.
  intros (Hl & Hr & Ht & Hb) Hw Hh.
  destruct (standard_crop_without_fallback cfg img target_w target_h
              0 0 (width img) (height img) Hl Hr Ht Hb)
    as (cropped & x0 & y0 & x1 & y1 & _ & Hcrop & Hcont & Hcw & Hch & Hpx);
    [lia|lia|lia|lia|].
  assert (x0 = 0 /\ y0 = 0 /\ x1 = width img /\ y1 = height img) as (-> & -> & -> & ->)
    by lia.
  exists cropped. split; [reflexivity|]. split; [exact Hcrop|].
  split; [lia|]. split; [lia|].
  intros x y Hx Hy. rewrite <- (Hpx x y) by lia. now rewrite !Z.sub_0_r.
Qed.

Lemma blank_standard_card_is_kept_whole_witness :
  exists cropped,
    effective_content_extents module_config black_card standard None
    = (Ret (0, 0, width black_card, height black_card), [WarnNoOverallContent])
    /\ border_adjusted_crop module_config black_card standard
         (0, 0, width black_card, height black_card) CARD_WIDTH_PX CARD_HEIGHT_PX
       = (Ret (Some cropped), [ActionStandard])
    /\ width cropped = width black_card /\ height cropped = height black_card
    /\ forall x y, 0 <= x < width black_card -> 0 <= y < height black_card ->
                   pixel cropped x y = pixel black_card x y.
Proof.
  apply (blank_standard_card_is_kept_whole module_config black_card
           CARD_WIDTH_PX CARD_HEIGHT_PX).
  - cbn. lia.
  - vm_compute. reflexivity.
  - vm_compute. reflexivity.
Defined.

(** ** File name sanitising *)

Section Sanitize.

Lemma ascii_eqb_true (a b : ascii) : Ascii.eqb a b = true <-> a = b.
Proof. apply Ascii.eqb_eq. Qed.

Lemma ascii_eqb_false (a b : ascii) : Ascii.eqb a b = false <-> a <> b.
Proof. apply Ascii.eqb_neq. Qed.

Lemma re_sub_runs_class_free (cls : ascii -> bool) (b : bool) (s : list ascii) :
  cls underscore = false ->
  Forall (fun c => cls c = false) (re_sub_runs cls [underscore] b s).
Proof.
  intros Hu. revert b. induction s as [|c s IH]; intros b; cbn [re_sub_runs].
  - constructor.
  - destruct (cls c) eqn:Hc.
    + destruct b; cbn [app]; [apply IH|]. constructor; [exact Hu|apply IH].
    + constructor; [exact Hc|apply IH].
Qed.

Lemma re_sub_runs_keeps (P : ascii -> Prop) (cls : ascii -> bool) (b : bool)
  (s : list ascii) :
  P underscore -> Forall P s -> Forall P (re_sub_runs cls [underscore] b s).
Proof.
  intros Hu Hs. revert b. induction Hs as [|c s Hc Hs IH]; intros b; cbn [re_sub_runs].
  - constructor.
  - destruct (cls c).
    + destruct b; cbn [app]; [apply IH|]. constructor; [exact Hu|apply IH].
    + constructor; [exact Hc|apply IH].
Qed.

(** Collapsing runs of underscores leaves no two in a row; inside a run the
    output does not start with an underscore. *)
Lemma collapse_no_adjacent (b : bool) (s : list ascii) :
  no_adjacent underscore (re_sub_runs (fun c => Ascii.eqb c underscore) [underscore] b s)
  /\ (b = true -> ~ starts_with underscore (re_sub_runs (fun c => Ascii.eqb c underscore) [underscore] b s)).
Proof.
  revert b. induction s as [|c s IH]; intros b; cbn [re_sub_runs].
  - split; [exact I|]. intros _ H. exact H.
  - destruct (Ascii.eqb c underscore) eqn:Hc.
    + destruct (IH true) as [Hna Hst]. destruct b; cbn [app].
      * split; [exact Hna|]. intros _. now apply Hst.
      * split; [|discriminate]. cbn [no_adjacent]. split; [|exact Hna].
        intros _. now apply Hst.
    + apply ascii_eqb_false in Hc. destruct (IH false) as [Hna _].
      split.
      * cbn [no_adjacent]. split; [|exact Hna]. intros E. contradiction.
      * intros _ E. cbn [starts_with] in E. contradiction.
Qed.

Lemma lstrip_suffix (c : ascii) (s : list ascii) :
  exists pre, s = pre ++ lstrip c s.
Proof.
  induction s as [|a s IH]; cbn [lstrip].
  - exists []. reflexivity.
  - destruct (Ascii.eqb a c).
    + destruct IH as (pre & Hpre). exists (a :: pre). cbn [app]. now f_equal.
    + exists []. reflexivity.
Qed.

Lemma lstrip_not_starting (c : ascii) (s : list ascii) : ~ starts_with c (lstrip c s).
Proof.
  induction s as [|a s IH]; cbn [lstrip]; [intros H; exact H|].
  destruct (Ascii.eqb a c) eqn:E; [exact IH|].
  apply ascii_eqb_false in E. cbn [starts_with]. exact E.
Qed.

Lemma lstrip_fixed (c : ascii) (s : list ascii) : ~ starts_with c s -> lstrip c s = s.
Proof.
  destruct s as [|a s]; intros H; cbn [lstrip]; [reflexivity|].
  destruct (Ascii.eqb a c) eqn:E; [|reflexivity].
  apply ascii_eqb_true in E. cbn [starts_with] in H. contradiction.
Qed.

Lemma rstrip_prefix (c : ascii) (s : list ascii) : exists suf, s = rstrip c s ++ suf.
Proof.
  unfold rstrip. destruct (lstrip_suffix c (rev s)) as (pre & Hpre).
  exists (rev pre). rewrite <- rev_app_distr, <- Hpre. now rewrite rev_involutive.
Qed.

Lemma no_adjacent_app (c : ascii) (s1 s2 : list ascii) :
  no_adjacent c (s1 ++ s2) -> no_adjacent c s1 /\ no_adjacent c s2.
Proof.
  induction s1 as [|a s1 IH]; cbn [app no_adjacent].
  - intros H. split; [exact I|exact H].
  - intros [Ha Hrest]. destruct (IH Hrest) as [H1 H2]. split; [|exact H2].
    split; [|exact H1]. intros E Hs. apply (Ha E).
    destruct s1; [contradiction|exact Hs].
Qed.

Lemma starts_with_app (c : ascii) (s1 s2 : list ascii) :
  s1 <> [] -> starts_with c (s1 ++ s2) -> starts_with c s1.
Proof. destruct s1; [congruence|]. intros _ H. exact H. Qed.

(** What [strip] leaves of a string without doubled underscores. *)
Lemma strip_shape (s : list ascii) :
  let r := strip underscore s in
  (exists pre suf, s = pre ++ r ++ suf)
  /\ ~ starts_with underscore r /\ ~ starts_with underscore (rev r).
Proof.
  intros r. subst r. unfold strip.
  destruct (lstrip_suffix underscore s) as (pre & Hpre).
  destruct (rstrip_prefix underscore (lstrip underscore s)) as (suf & Hsuf).
  split; [|split].
  - exists pre, suf. rewrite <- Hsuf. exact Hpre.
  - intros H. apply (lstrip_not_starting underscore s). rewrite Hsuf.
    destruct (rstrip underscore (lstrip underscore s)); [contradiction|exact H].
  - unfold rstrip. rewrite rev_involutive. apply lstrip_not_starting.
Qed.

Lemma forall_app_inv {A : Type} (P : A -> Prop) (l1 l2 l3 : list A) :
  Forall P (l1 ++ l2 ++ l3) -> Forall P l2.
Proof.
  intros H. apply Forall_app in H. destruct H as [_ H].
  apply Forall_app in H. tauto.
Qed.

Lemma invalid_char_underscore : invalid_char underscore = false.
Proof. reflexivity. Qed.

(** The result of [sanitize_chars] is always a clean component. *)
Lemma sanitize_chars_clean (name : list ascii) : clean_component (sanitize_chars name).
Proof.
  unfold sanitize_chars, re_sub_class_plus.
  set (base := fst (splitext (basename name))).
  set (s1 := re_sub_runs invalid_char [underscore] false base).
  set (s2 := re_sub_runs (fun c => Ascii.eqb c underscore) [underscore] false s1).
  assert (H1 : Forall (fun c => invalid_char c = false) s1).
  { apply re_sub_runs_class_free. reflexivity. }
  assert (H2 : Forall (fun c => invalid_char c = false) s2).
  { apply re_sub_runs_keeps; [reflexivity|exact H1]. }
  destruct (collapse_no_adjacent false s1) as [Hna _]. fold s2 in Hna.
  destruct (strip_shape s2) as ((pre & suf & Hs) & Hhd & Hlast).
  destruct (strip underscore s2) as [|a r] eqn:E.
  - unfold clean_component. split; [discriminate|]. split.
    + repeat constructor.
    + cbn. intuition discriminate.
  - unfold clean_component. split; [discriminate|]. split.
    + rewrite Hs in H2. now apply forall_app_inv in H2.
    + split; [|split; assumption].
      rewrite Hs in Hna. apply no_adjacent_app in Hna. destruct Hna as [_ Hna].
      apply no_adjacent_app in Hna. tauto.
Qed.

Lemma rfind_from_absent (c : ascii) (p : list ascii) (i last : Z) :
  Forall (fun a => a <> c) p -> rfind_from c p i last = last.
Proof.
  intros H. revert i. induction H as [|a p Ha Hp IH]; intros i; cbn [rfind_from].
  - reflexivity.
  - apply ascii_eqb_false in Ha. rewrite Ha. apply IH.
Qed.

Lemma re_sub_runs_fixed (cls : ascii -> bool) (b : bool) (s : list ascii) :
  Forall (fun c => cls c = false) s -> re_sub_runs cls [underscore] b s = s.
Proof.
  intros H. revert b. induction H as [|c s Hc Hs IH]; intros b; cbn [re_sub_runs].
  - reflexivity.
  - rewrite Hc. f_equal. apply IH.
Qed.

Lemma collapse_fixed (b : bool) (s : list ascii) :
  no_adjacent underscore s -> (b = true -> ~ starts_with underscore s) ->
  re_sub_runs (fun c => Ascii.eqb c underscore) [underscore] b s = s.
Proof.
  revert b. induction s as [|c s IH]; intros b Hna Hb; cbn [re_sub_runs].
  - reflexivity.
  - cbn [no_adjacent] in Hna. destruct Hna as [Hc Hna].
    destruct (Ascii.eqb c underscore) eqn:E.
    + apply ascii_eqb_true in E. destruct b.
      * exfalso. apply (Hb eq_refl). exact E.
      * cbn [app]. subst c. f_equal. apply IH; [exact Hna|]. intros _. now apply Hc.
    + f_equal. apply IH; [exact Hna|discriminate].
Qed.

(** A clean component is left as it is. *)
Lemma sanitize_chars_fixed (s : list ascii) : clean_component s -> sanitize_chars s = s.
Proof.
  intros (Hne & Hvalid & Hna & Hhd & Hlast).
  assert (Hnosep : Forall (fun a => a <> sep) s).
  { eapply Forall_impl; [|exact Hvalid]. intros a Ha ->. discriminate. }
  assert (Hnodot : Forall (fun a => a <> extsep) s).
  { eapply Forall_impl; [|exact Hvalid]. intros a Ha ->. discriminate. }
  unfold sanitize_chars.
  assert (Hbase : basename s = s).
  { unfold basename, rfind. now rewrite rfind_from_absent. }
  rewrite Hbase.
  assert (Hext : splitext s = (s, [])).
  { unfold splitext, rfind. now rewrite !rfind_from_absent. }
  rewrite Hext. cbn [fst]. unfold re_sub_class_plus.
  rewrite (re_sub_runs_fixed invalid_char false s Hvalid).
  rewrite collapse_fixed by (assumption || discriminate).
  unfold strip, rstrip. rewrite (lstrip_fixed underscore s Hhd).
  rewrite (lstrip_fixed underscore (rev s) Hlast), rev_involutive.
  destruct s; [congruence|reflexivity].
Qed.

End Sanitize.

(** X9: a sanitised component is never empty and contains none of the
    characters the pattern forbids: no [<], [>], [:], double quote, slash,
    backslash, [|], [?], star, white space or dot. *)
Theorem sanitized_name_is_valid (name : string) :
  sanitize_filename_component name <> EmptyString
  /\ Forall (fun c => invalid_char c = false) (chars (sanitize_filename_component name)).
Proof.
  unfold sanitize_filename_component, text, chars.
  destruct (sanitize_chars_clean (list_ascii_of_string name)) as (Hne & Hvalid & _).
  rewrite list_ascii_of_string_of_list_ascii. split; [|exact Hvalid].
  intros E. apply Hne.
  rewrite <- (list_ascii_of_string_of_list_ascii (sanitize_chars _)), E. reflexivity.
Qed.

(** X10: a sanitised component has no underscore at its start or end and no
    two underscores in a row. *)
Theorem sanitized_name_underscores (name : string) :
  let r := chars (sanitize_filename_component name) in
  ~ starts_with underscore r /\ ~ starts_with underscore (rev r)
  /\ no_adjacent underscore r.
Proof.
  unfold sanitize_filename_component, text, chars.
  destruct (sanitize_chars_clean (list_ascii_of_string name)) as (_ & _ & Hna & Hhd & Hl).
  rewrite list_ascii_of_string_of_list_ascii. cbv zeta. tauto.
Qed.

(** X11: sanitising is idempotent: a sanitised component is a fixed point
    of [sanitize_filename_component]. *)
Theorem sanitize_idempotent (name : string) :
  sanitize_filename_component (sanitize_filename_component name)
  = sanitize_filename_component name.
Proof.
  unfold sanitize_filename_component, text, chars.
  rewrite list_ascii_of_string_of_list_ascii.
  now rewrite (sanitize_chars_fixed _ (sanitize_chars_clean _)).
Qed.

(** ** Sheet names *)

Lemma chars_append (a b : string) : chars (a ++ b) = (chars a ++ chars b)%list.
Proof.
  unfold chars. induction a as [|c a IH]; cbn; [reflexivity|]. now rewrite IH.
Qed.

Lemma chars_injective (a b : string) : chars a = chars b -> a = b.
Proof.
  unfold chars. intros H.
  rewrite <- (string_of_list_ascii_of_string a), <- (string_of_list_ascii_of_string b).
  now rewrite H.
Qed.

Lemma decimal_has_no_underscore (d : Decimal.uint) :
  ~ In underscore (chars (NilEmpty.string_of_uint d)).
Proof.
  unfold chars.
  induction d; cbn; try tauto;
    (intros [E|H]; [discriminate|exact (IHd H)]).
Qed.

Lemma string_of_uint_injective (d d' : Decimal.uint) :
  NilEmpty.string_of_uint d = NilEmpty.string_of_uint d' -> d = d'.
Proof.
  intros H. pose proof (NilEmpty.usu d) as E. rewrite H, NilEmpty.usu in E.
  now injection E.
Qed.

(** Two lists that agree up to and after a first occurrence of [c]. *)
Lemma split_at_first {A : Type} (c : A) (l1 l2 r1 r2 : list A) :
  ~ In c l1 -> ~ In c l2 -> (l1 ++ c :: r1 = l2 ++ c :: r2)%list -> l1 = l2.
Proof.
  revert l2. induction l1 as [|a l1 IH]; intros [|b l2] H1 H2 E; cbn in *.
  - reflexivity.
  - injection E as E _. exfalso. apply H2. left. now symmetry.
  - injection E as E _. exfalso. apply H1. now left.
  - injection E as -> E. f_equal. apply IH with (l2 := l2); tauto.
Qed.

(** The sheet number decides the name: two output sheet names with
    different non-negative numbers differ, whatever the sanitised first and
    last file names are. *)
Lemma sheet_names_differ (first1 last1 first2 last2 : string) (k1 k2 : Z) :
  0 <= k1 -> 0 <= k2 -> k1 <> k2 ->
  output_sheet_name first1 last1 k1 <> output_sheet_name first2 last2 k2.
Proof.
  intros H1 H2 Hne E. apply Hne. unfold output_sheet_name, str_of_int in E.
  replace (k1 <? 0) with false in E by lia. replace (k2 <? 0) with false in E by lia.
  apply (f_equal chars) in E. rewrite !chars_append in E.
  apply (f_equal (@rev ascii)) in E. rewrite !rev_app_distr in E.
  rewrite <- !app_assoc in E. apply app_inv_head in E.
  change (rev (chars "_sheet_")) with (underscore :: chars "teehs_") in E.
  cbn [app] in E.
  apply split_at_first in E.
  - apply (f_equal (@rev ascii)) in E.
    rewrite !rev_involutive in E. apply chars_injective in E.
    apply string_of_uint_injective, Unsigned.to_uint_inj in E. lia.
  - intros Hin. apply in_rev in Hin. exact (decimal_has_no_underscore _ Hin).
  - intros Hin. apply in_rev in Hin. exact (decimal_has_no_underscore _ Hin).
Qed.

(** ** The batch loop *)

Lemma range_snoc (k : Z) : 0 <= k -> range (k + 1) = (range k ++ [k])%list.
Proof.
  intros Hk. unfold range. replace (Z.to_nat (k + 1)) with (S (Z.to_nat k)) by lia.
  rewrite seq_S, map_app. cbn [map Nat.add]. now rewrite Z2Nat.id.
Qed.

Lemma range_length (n : Z) : List.length (range n) = Z.to_nat n.
Proof. unfold range. now rewrite length_map, length_seq. Qed.

Lemma for_each_map {St : Type} (f : Z -> Z) (xs : list Z) (body : St -> Z -> exc St)
  (s : St) :
  for_each (map f xs) body s = for_each xs (fun st x => body st (f x)) s.
Proof.
  revert s. induction xs as [|x xs IH]; intros s; cbn [map for_each]; [reflexivity|].
  destruct (body s (f x)); cbn [Py.bind]; [apply IH|reflexivity].
Qed.

Lemma firstn_add {A : Type} (a b : nat) (l : list A) :
  firstn (a + b) l = (firstn a l ++ firstn b (skipn a l))%list.
Proof.
  revert l. induction a as [|a IH]; intros l; [reflexivity|].
  destruct l as [|x l]; cbn [Nat.add firstn skipn app].
  - now rewrite firstn_nil.
  - now rewrite IH.
Qed.

Lemma list_getitem_first {A : Type} (l : list A) (d : A) :
  l <> [] -> list_getitem l 0 = Ret (hd d l).
Proof.
  destruct l as [|a l]; [congruence|]. intros _. unfold list_getitem.
  cbn [List.length]. replace (0 <? 0) with false by lia.
  replace (0 <? Z.of_nat (S (List.length l))) with true
    by (symmetry; apply Z.ltb_lt; lia).
  reflexivity.
Qed.

Lemma list_getitem_last {A : Type} (l : list A) (d : A) :
  l <> [] -> list_getitem l (-1) = Ret (last l d).
Proof.
  intros Hne. destruct (exists_last Hne) as (l' & a & ->).
  unfold list_getitem. rewrite length_app. cbn [List.length].
  replace (-1 <? 0) with true by lia.
  replace (0 <=? Z.of_nat (List.length l' + 1) + -1) with true
    by (symmetry; apply Z.leb_le; lia).
  replace (Z.of_nat (List.length l' + 1) + -1 <? Z.of_nat (List.length l' + 1))
    with true by (symmetry; apply Z.ltb_lt; lia).
  cbn [andb].
  replace (Z.to_nat (Z.of_nat (List.length l' + 1) + -1)) with (List.length l') by lia.
  rewrite nth_error_app2 by lia. rewrite Nat.sub_diag. cbn [nth_error].
  now rewrite last_last.
Qed.

Lemma map_nth_seq {A : Type} (l : list A) (d : A) :
  map (fun k => nth k l d) (seq 0 (List.length l)) = l.
Proof.
  induction l as [|x l IH]; [reflexivity|].
  cbn [List.length seq map nth]. f_equal.
  rewrite <- seq_shift, map_map. exact IH.
Qed.

Lemma nth_range2_is_skipn {A : Type} (l : list A) (d : A) (a : nat) :
  (a <= List.length l)%nat ->
  map (fun i => nth (Z.to_nat i) l d) (range2 (Z.of_nat a) (Z.of_nat (List.length l)))
  = skipn a l.
Proof.
  intros Ha. unfold range2, range. rewrite !map_map.
  replace (Z.to_nat (Z.of_nat (List.length l) - Z.of_nat a))
    with (List.length (skipn a l)) by (rewrite length_skipn; lia).
  rewrite <- (map_nth_seq (skipn a l) d) at 2. apply map_ext. intros k.
  rewrite nth_skipn. f_equal. lia.
Qed.

Section MainLoop.

Variable cfg : config.
Variable all_image_files : list string.
Variable output_dir_path : string.

Let n : Z := Z.of_nat (List.length all_image_files).
Let chunk (j : Z) : list string := list_slice all_image_files (0 + j * 9) (0 + j * 9 + 9).
Let name (j : Z) : string :=
  output_sheet_name (sanitize_filename_component (hd EmptyString (chunk j)))
    (sanitize_filename_component (last (chunk j) EmptyString)) (j + 1).
Let path (j : Z) : string := text (join (chars output_dir_path) (chars (name j))).

Lemma chunk_full (j : Z) :
  0 <= j < n / 9 -> List.length (chunk j) = 9%nat.
Proof.
  intros Hj. unfold chunk, list_slice. rewrite length_firstn, length_skipn.
  subst n. assert (j * 9 + 9 <= Z.of_nat (List.length all_image_files)) by div_lia.
  lia.
Qed.

Lemma chunks_concat_nat (m : nat) :
  Z.of_nat m <= n / 9 ->
  List.concat (map chunk (range (Z.of_nat m))) = firstn (m * 9) all_image_files.
Proof.
  induction m as [|m IH]; intros Hm; [reflexivity|].
  replace (Z.of_nat (S m)) with (Z.of_nat m + 1) by lia.
  rewrite range_snoc, map_app, concat_app by lia. cbn [map List.concat].
  rewrite app_nil_r, IH by lia.
  replace (S m * 9)%nat with (m * 9 + 9)%nat by lia.
  rewrite firstn_add. f_equal. unfold chunk, list_slice. f_equal; [lia|]. f_equal. lia.
Qed.

Lemma chunks_concat (k : Z) :
  0 <= k <= n / 9 ->
  List.concat (map chunk (range k)) = firstn (Z.to_nat (k * 9)) all_image_files.
Proof.
  intros Hk. rewrite <- (Z2Nat.id k) at 1 by lia.
  rewrite chunks_concat_nat by lia. f_equal. lia.
Qed.

(** The state of the loop after [k] sheets. *)
Let loop_inv (k : Z) (st : list main_event * Z) : Prop :=
  snd st = k
  /\ sheets_made (fst st) = map (fun j => (chunk j, path j)) (range k)
  /\ sheet_names (fst st) = map (fun j => (j + 1, name j)) (range k)
  /\ leftover_indices (fst st) = [].

Lemma batch_loop (events0 : list main_event) :
  sheets_made events0 = [] -> sheet_names events0 = [] -> leftover_indices events0 = [] ->
  exists events,
    for_each (range_step 0 (n / 9 * 9) 9)
      (fun (st : list main_event * Z) i =>
         let '(events, num_sheets_created) := st in
         let current_chunk_paths := list_slice all_image_files i (i + 9) in
         first_path <- list_getitem current_chunk_paths 0 ;;
         last_path <- list_getitem current_chunk_paths (-1) ;;
         let first_file_sanitized := sanitize_filename_component first_path in
         let last_file_sanitized := sanitize_filename_component last_path in
         let name := output_sheet_name first_file_sanitized last_file_sanitized
                       (num_sheets_created + 1) in
         let full_output_path_for_sheet :=
           text (join (chars output_dir_path) (chars name)) in
         Ret ((events ++ [ProcessingBatch (num_sheets_created + 1) name;
                          CallCreatePrintableSheet current_chunk_paths
                            full_output_path_for_sheet])%list,
              num_sheets_created + 1))
      (events0, 0) = Ret (events, n / 9)
    /\ sheets_made events = map (fun j => (chunk j, path j)) (range (n / 9))
    /\ sheet_names events = map (fun j => (j + 1, name j)) (range (n / 9))
    /\ leftover_indices events = [].
Proof.
  intros H1 H2 H3.
  assert (Hn : 0 <= n / 9) by (subst n; div_lia).
  unfold range_step. replace ((n / 9 * 9 - 0 + 9 - 1) / 9) with (n / 9) by div_lia.
  rewrite for_each_map.
  match goal with
  | |- exists events, for_each _ ?body _ = _ /\ _ =>
      destruct (for_each_range_inv loop_inv body (n / 9) (events0, 0))
        as ([events c] & Hrun & Hc & Hs & Hn' & Hl)
  end.
  - unfold loop_inv. cbn [fst snd]. auto.
  - intros k [events c] Hk (Hc & Hs & Hn' & Hl). cbn [fst snd] in *. subst c.
    pose proof (chunk_full k Hk) as Hlen. fold (chunk k).
    assert (Hne : chunk k <> []) by (intros E; rewrite E in Hlen; discriminate).
    rewrite (list_getitem_first _ EmptyString Hne), (list_getitem_last _ EmptyString Hne).
    cbn [Py.bind]. eexists. split; [reflexivity|].
    unfold loop_inv. cbn [fst snd]. split; [reflexivity|].
    unfold sheets_made, sheet_names, leftover_indices in *.
    rewrite !flat_map_app, Hs, Hn', Hl, range_snoc, !map_app by lia.
    cbn [flat_map map app]. auto.
  - rewrite Z.max_r in * by lia. cbn [fst snd] in *. subst c.
    exists events. auto.
Qed.

(** The run on a folder of at least nine images. *)
Lemma main_batches_characterised :
  9 <= n ->
  exists events, main_batches cfg all_image_files output_dir_path = Ret events
    /\ sheets_made events = map (fun j => (chunk j, path j)) (range (n / 9))
    /\ sheet_names events = map (fun j => (j + 1, name j)) (range (n / 9))
    /\ leftover_indices events = range2 (n / 9 * 9) n.
Proof.
  intros Hn. unfold main_batches. fold n.
  replace (n =? 0) with false by lia. replace (n <? 9) with false by lia.
  assert (Hfull : 9 <= n / 9 * 9) by div_lia.
  replace (n / 9 * 9 =? 0) with false by lia.
  destruct (batch_loop (if FORCE_STANDARD_FRAME_TYPE cfg
                        then ([FoundImages n] ++ [ForceStandardNotice])%list
                        else [FoundImages n]))
    as (events & Hrun & Hs & Hn' & Hl);
    try (destruct (FORCE_STANDARD_FRAME_TYPE cfg); reflexivity).
  cbv zeta in Hrun |- *. rewrite Hrun. cbn [Py.bind].
  replace (n / 9 >? 0) with true by lia.
  assert (Hmid : forall tail,
             sheets_made tail = [] -> sheet_names tail = [] ->
             sheets_made ((events ++ [FinishedCreated (n / 9)]) ++ tail)%list
             = map (fun j => (chunk j, path j)) (range (n / 9))
             /\ sheet_names ((events ++ [FinishedCreated (n / 9)]) ++ tail)%list
                = map (fun j => (j + 1, name j)) (range (n / 9))
             /\ leftover_indices ((events ++ [FinishedCreated (n / 9)]) ++ tail)%list
                = leftover_indices tail).
  { intros tail T1 T2. unfold sheets_made, sheet_names, leftover_indices in *.
    rewrite !flat_map_app, Hs, Hn', Hl, T1, T2. cbn [flat_map app].
    rewrite !app_nil_r. auto. }
  destruct (n mod 9 >? 0) eqn:Hmod.
  - eexists. split; [reflexivity|].
    assert (Hnone : forall (l : list Z),
               sheets_made (map LeftoverFile l) = []
               /\ sheet_names (map LeftoverFile l) = []
               /\ leftover_indices (map LeftoverFile l) = l).
    { induction l as [|i l (I1 & I2 & I3)]; [auto|].
      unfold sheets_made, sheet_names, leftover_indices in *.
      cbn [map flat_map app]. rewrite I1, I2, I3. auto. }
    destruct (Hnone (range2 (n / 9 * 9) n)) as (N1 & N2 & N3).
    destruct (Hmid ([LeftoverNote (n mod 9); LeftoverFilesHeader]
                      ++ map LeftoverFile (range2 (n / 9 * 9) n))%list)
      as (M1 & M2 & M3).
    + unfold sheets_made in *. cbn [app flat_map]. exact N1.
    + unfold sheet_names in *. cbn [app flat_map]. exact N2.
    + split; [exact M1|]. split; [exact M2|]. rewrite M3.
      unfold leftover_indices in *. cbn [app flat_map]. exact N3.
  - eexists. split; [reflexivity|].
    destruct (Hmid []) as (M1 & M2 & M3); [reflexivity|reflexivity|].
    rewrite app_nil_r in M1, M2, M3. split; [exact M1|]. split; [exact M2|].
    rewrite M3. rewrite Z.gtb_ltb in Hmod. apply Z.ltb_ge in Hmod.
    assert (n / 9 * 9 = n) by div_lia.
    unfold range2, range. replace (n - n / 9 * 9) with 0 by lia. reflexivity.
Qed.

Lemma NoDup_map_on {A B : Type} (f : A -> B) (l : list A) :
  (forall a b, In a l -> In b l -> f a = f b -> a = b) -> NoDup l -> NoDup (map f l).
Proof.
  intros Hinj Hnd. induction Hnd as [|a l Ha Hnd IH]; cbn [map]; constructor.
  - intros Hin. apply in_map_iff in Hin. destruct Hin as (b & Hb & Hin).
    apply Ha. rewrite (Hinj a b); [exact Hin|now left|now right|now symmetry].
  - apply IH. intros x y Hx Hy. apply Hinj; now right.
Qed.

Lemma range_NoDup (m : Z) : NoDup (range m).
Proof.
  unfold range. apply NoDup_map_on; [|apply seq_NoDup].
  intros a b _ _. apply Nat2Z.inj.
Qed.

(** X12: on a folder of at least nine images the run raises no error,
    every chunk handed to [create_printable_sheet] holds exactly nine paths,
    there are [n // 9] sheets and [n % 9] leftover indices, and the chunks in
    call order followed by the files at the leftover indices are exactly the
    sorted file list: no file is dropped, repeated or reordered. *)
Theorem batches_partition_the_files :
  9 <= n ->
  exists events, main_batches cfg all_image_files output_dir_path = Ret events
    /\ Forall (fun made => List.length (fst made) = 9%nat) (sheets_made events)
    /\ Z.of_nat (List.length (sheets_made events)) = n / 9
    /\ Z.of_nat (List.length (leftover_indices events)) = n mod 9
    /\ (List.concat (map fst (sheets_made events))
        ++ map (fun i => nth (Z.to_nat i) all_image_files EmptyString)
             (leftover_indices events))%list = all_image_files.
Proof.
  intros Hn. destruct (main_batches_characterised Hn) as (events & Hrun & Hs & _ & Hl).
  assert (Hq : 0 <= n / 9 /\ 0 <= n / 9 * 9 <= n /\ n - n / 9 * 9 = n mod 9) by div_lia.
  exists events. split; [exact Hrun|]. rewrite Hs, Hl. split; [|split; [|split]].
  - apply Forall_map. apply Forall_forall. intros j Hj. apply in_range in Hj.
    cbn [fst]. now apply chunk_full.
  - rewrite length_map, range_length. lia.
  - unfold range2. rewrite length_map, range_length. lia.
  - rewrite map_map. cbn [fst]. rewrite chunks_concat by lia.
    replace (n / 9 * 9) with (Z.of_nat (Z.to_nat (n / 9 * 9))) at 2 by lia.
    subst n. rewrite nth_range2_is_skipn by lia. apply firstn_skipn.
Qed.

(** X13: on a folder of at least nine images the sheets are numbered
    1, 2, ... in call order, their output names are pairwise different, and
    each sheet is written to the output directory joined with its name. *)
Theorem sheets_are_numbered_and_named_apart :
  9 <= n ->
  exists events, main_batches cfg all_image_files output_dir_path = Ret events
    /\ map fst (sheet_names events) = map (fun j => j + 1) (range (n / 9))
    /\ NoDup (map snd (sheet_names events))
    /\ map snd (sheets_made events)
       = map (fun made => text (join (chars output_dir_path) (chars (snd made))))
           (sheet_names events).
Proof.
  intros Hn. destruct (main_batches_characterised Hn) as (events & Hrun & Hs & Hn' & _).
  exists events. split; [exact Hrun|]. rewrite Hs, Hn', !map_map. cbn [fst snd].
  split; [reflexivity|]. split; [|reflexivity].
  apply NoDup_map_on; [|apply range_NoDup].
  intros a b Ha Hb E. apply in_range in Ha, Hb.
  destruct (Z.eq_dec a b) as [|Hne]; [assumption|]. exfalso.
  unfold name in E. revert E. apply sheet_names_differ; lia.
Qed.

(** X14: with fewer than nine images the run stops right after counting:
    no sheet is made, no name announced and no file listed as left over. *)
Theorem fewer_than_nine_makes_nothing :
  n < 9 ->
  exists events, main_batches cfg all_image_files output_dir_path = Ret events
    /\ sheets_made events = [] /\ sheet_names events = []
    /\ leftover_indices events = []
    /\ (events = [FoundImages n; ExitNoImages]
        \/ events = [FoundImages n; ExitFewerThanNine n]).
Proof.
  intros Hn. unfold main_batches. fold n.
  destruct (n =? 0) eqn:E0.
  - eexists. split; [reflexivity|]. cbn. auto.
  - replace (n <? 9) with true by lia. eexists. split; [reflexivity|]. cbn. auto.
Qed.

End MainLoop.

Lemma batches_partition_the_files_witness :
  exists events, main_batches module_config eleven_files "out" = Ret events
    /\ Forall (fun made => List.length (fst made) = 9%nat) (sheets_made events)
    /\ Z.of_nat (List.length (sheets_made events)) = 11 / 9
    /\ Z.of_nat (List.length (leftover_indices events)) = 11 mod 9
    /\ (List.concat (map fst (sheets_made events))
        ++ map (fun i => nth (Z.to_nat i) eleven_files EmptyString)
             (leftover_indices events))%list = eleven_files.
Proof.
  apply (batches_partition_the_files module_config eleven_files "out").
  vm_compute. discriminate.
Defined.

Lemma sheets_are_numbered_and_named_apart_witness :
  exists events, main_batches module_config eleven_files "out" = Ret events
    /\ map fst (sheet_names events) = map (fun j => j + 1) (range (11 / 9))
    /\ NoDup (map snd (sheet_names events))
    /\ map snd (sheets_made events)
       = map (fun made => text (join (chars "out") (chars (snd made))))
           (sheet_names events).
Proof.
  apply (sheets_are_numbered_and_named_apart module_config eleven_files "out").
  vm_compute. discriminate.
Defined.

Lemma fewer_than_nine_makes_nothing_witness :
  exists events, main_batches module_config (firstn 8 eleven_files) "out" = Ret events
    /\ sheets_made events = [] /\ sheet_names events = []
    /\ leftover_indices events = []
    /\ (events = [FoundImages 8; ExitNoImages]
        \/ events = [FoundImages 8; ExitFewerThanNine 8]).
Proof.
  apply (fewer_than_nine_makes_nothing module_config (firstn 8 eleven_files) "out").
  vm_compute. reflexivity.
Defined.

(** ** Sheet composer *)

Section Sheet.

Variable cfg : config.
Variable files : disk.

Let render (image_path : string) : option (PIL.image rgba) * list msg :=
  resize_card cfg files image_path CARD_WIDTH_PX CARD_HEIGHT_PX.

(** One cell of the grid: with an image left, render it, paste it when it
    rendered, and move on; with none left, break. *)
Lemma place_card_at (k : nat) (chunk : list string) (row col idx : Z)
  (ops : list sheet_op) (out : list sheet_msg) :
  idx = Z.of_nat k ->
  place_card cfg files chunk row (idx, ops, out) col
  = match nth_error chunk k with
    | Some image_path =>
        ((idx + 1,
          (ops ++ match fst (render image_path) with
                  | Some card => [SheetPaste card (MARGIN_X + col * CARD_WIDTH_PX)
                                    (MARGIN_Y + row * CARD_HEIGHT_PX)]
                  | None => []
                  end)%list,
          (out ++ map CardOutput (snd (render image_path)))%list), false)
    | None => ((idx, ops, out), true)
    end.
Proof.
  intros ->. unfold place_card, list_getitem.
  destruct (nth_error chunk k) as [p|] eqn:Hnth.
  - assert (Hk : (k < List.length chunk)%nat) by (apply nth_error_Some; congruence).
    replace (Z.of_nat k <? 0) with false by (symmetry; apply Z.ltb_ge; lia).
    replace (0 <=? Z.of_nat k) with true by (symmetry; apply Z.leb_le; lia).
    replace (Z.of_nat k <? Z.of_nat (List.length chunk)) with true
      by (symmetry; apply Z.ltb_lt; lia).
    cbn [andb]. rewrite Nat2Z.id, Hnth. unfold render.
    destruct (resize_card cfg files p CARD_WIDTH_PX CARD_HEIGHT_PX) as [[card|] printed];
      cbn [fst snd]; [reflexivity|]. now rewrite app_nil_r.
  - assert (Hk : (List.length chunk <= k)%nat) by (apply nth_error_None; exact Hnth).
    replace (Z.of_nat k <? Z.of_nat (List.length chunk)) with false
      by (symmetry; apply Z.ltb_ge; lia).
    reflexivity.
Qed.

Ltac grid_cell :=
  match goal with
  | |- context [place_card _ _ _ _ (?idx, _, _) _] =>
      let k := eval vm_compute in (Z.to_nat idx) in
      rewrite (place_card_at k) by reflexivity; cbn [nth_error for_break]
  end.

Ltac grid_row_end :=
  match goal with
  | |- context [?a >=? Z.of_nat (List.length ?l)] =>
      let E := fresh "E" in
      destruct (a >=? Z.of_nat (List.length l)) eqn:E;
      [ try (exfalso; apply Z.geb_le in E; cbn [List.length] in E; lia)
      | try (exfalso; rewrite Z.geb_leb in E; apply Z.leb_gt in E;
             cbn [List.length] in E; lia) ]
  end; cbn [for_break].

Ltac grid_done :=
  cbn [fst snd combine flat_map firstn map List.length];
  rewrite <- ?app_assoc; cbn [app]; rewrite ?app_nil_r; reflexivity.

(** X15: whatever the chunk, the sheet composer renders its first nine
    paths and no others, once each and in order; the card of path number
    [i], when it renders, is pasted at the origin of cell
    [(i // 3, i % 3)], and a path that does not render leaves its own cell
    empty without moving the later cards; after the cards the same four cut
    lines are drawn and the sheet is saved. *)
Theorem sheet_shows_cards_in_their_cells (save_raises : bool) (chunk : list string)
  (output_path : string) :
  create_printable_sheet cfg files save_raises chunk output_path
  = (([SheetNew PAPER_WIDTH_PX PAPER_HEIGHT_PX (RGBA 255 255 255 255)]
      ++ cards_on_sheet cfg files chunk
      ++ [SheetLine (MARGIN_X + 1 * CARD_WIDTH_PX - 2) 0
            (MARGIN_X + 1 * CARD_WIDTH_PX - 2) PAPER_HEIGHT_PX LINE_COLOR LINE_WIDTH;
          SheetLine (MARGIN_X + 2 * CARD_WIDTH_PX - 2) 0
            (MARGIN_X + 2 * CARD_WIDTH_PX - 2) PAPER_HEIGHT_PX LINE_COLOR LINE_WIDTH;
          SheetLine 0 (MARGIN_Y + 1 * CARD_HEIGHT_PX - 2)
            PAPER_WIDTH_PX (MARGIN_Y + 1 * CARD_HEIGHT_PX - 2) LINE_COLOR LINE_WIDTH;
          SheetLine 0 (MARGIN_Y + 2 * CARD_HEIGHT_PX - 2)
            PAPER_WIDTH_PX (MARGIN_Y + 2 * CARD_HEIGHT_PX - 2) LINE_COLOR LINE_WIDTH;
          SheetSave output_path (DPI, DPI)])%list,
     ([CreatingSheet (text (basename (chars output_path)))]
      ++ flat_map (fun image_path => map CardOutput (snd (render image_path)))
           (firstn 9 chunk)
      ++ [if save_raises then ErrorSavingSheet output_path
          else SavedSheet output_path])%list).
Proof.
  unfold create_printable_sheet, cards_on_sheet, render.
  change (range 3) with [0; 1; 2]. change (range 9) with [0; 1; 2; 3; 4; 5; 6; 7; 8].
  change (range2 1 3) with [1; 2]. change (LINE_WIDTH / 2) with 2.
  cbn [for_break].
  destruct chunk as [|p0 [|p1 [|p2 [|p3 [|p4 [|p5 [|p6 [|p7 [|p8 rest]]]]]]]]];
    repeat first [grid_cell | grid_row_end]; grid_done.
Qed.

(** A card that [resize_card] returns has the size asked for. *)
Lemma resize_card_some_size (image_path : string) (target_w target_h : Z)
  (card : PIL.image rgba) :
  1 <= target_w -> 1 <= target_h ->
  fst (resize_card cfg files image_path target_w target_h) = Some card ->
  width card = target_w /\ height card = target_h.
Proof.
  intros Hw Hh. unfold resize_card.
  destruct (files image_path) as [img|e] eqn:Hfile.
  - destruct (resize_card_try_returns cfg files image_path img target_w target_h
                Hfile Hw Hh) as (c & out & -> & Hsize).
    cbn [fst]. intros E. injection E as <-. exact Hsize.
  - unfold resize_card_try. rewrite Hfile. unfold lift, mbind.
    destruct e; cbn [fst]; discriminate.
Qed.

(** Two pastes cover disjoint rectangles. *)
Let apart (a b : sheet_op) : Prop :=
  match paste_rect a, paste_rect b with
  | Some ra, Some rb => boxes_disjoint ra rb
  | _, _ => False
  end.

(** A paste is the card-sized cell number [i] of the grid. *)
Let is_cell (i : Z) (op : sheet_op) : Prop :=
  exists card, op = SheetPaste card (MARGIN_X + i mod 3 * CARD_WIDTH_PX)
                      (MARGIN_Y + i / 3 * CARD_HEIGHT_PX)
               /\ width card = CARD_WIDTH_PX /\ height card = CARD_HEIGHT_PX.

Lemma cells_apart (i j : Z) (a b : sheet_op) :
  0 <= i < 9 -> 0 <= j < 9 -> i <> j -> is_cell i a -> is_cell j b -> apart a b.
Proof.
  intros Hi Hj Hne (ca & -> & Hwa & Hha) (cb & -> & Hwb & Hhb).
  unfold apart, paste_rect, boxes_disjoint. rewrite Hwa, Hha, Hwb, Hhb.
  unfold MARGIN_X, MARGIN_Y, CARD_WIDTH_PX, CARD_HEIGHT_PX. cbn [orb Z.ltb].
  change ((PAPER_WIDTH_PX - GRID_WIDTH_PX) / 2) with 600.
  change ((PAPER_HEIGHT_PX - GRID_HEIGHT_PX) / 2) with 300.
  cbn [Z.ltb Z.compare orb]. div_lia.
Qed.

Lemma cells_from (s n : nat) (chunk : list string) :
  (s + n <= 9)%nat ->
  let pastes :=
    flat_map (fun '(i, image_path) =>
                match fst (render image_path) with
                | Some card => [SheetPaste card (MARGIN_X + (i mod 3) * CARD_WIDTH_PX)
                                  (MARGIN_Y + (i / 3) * CARD_HEIGHT_PX)]
                | None => []
                end)
      (combine (map Z.of_nat (seq s n)) chunk) in
  Forall (fun op => exists i, Z.of_nat s <= i < Z.of_nat (s + n) /\ is_cell i op) pastes
  /\ ForallOrdPairs apart pastes.
Proof.
  revert s chunk. induction n as [|n IH]; intros s chunk Hs pastes; subst pastes.
  { cbn. split; constructor. }
  destruct chunk as [|p chunk].
  { cbn. split; constructor. }
  cbn [seq map combine flat_map].
  destruct (IH (S s) chunk ltac:(lia)) as [Hcells Hapart].
  assert (Hlater : Forall (fun op => exists i, Z.of_nat s < i < Z.of_nat (s + S n)
                                              /\ is_cell i op)
                     (flat_map (fun '(i, image_path) =>
                                  match fst (render image_path) with
                                  | Some card =>
                                      [SheetPaste card (MARGIN_X + (i mod 3) * CARD_WIDTH_PX)
                                         (MARGIN_Y + (i / 3) * CARD_HEIGHT_PX)]
                                  | None => []
                                  end)
                        (combine (map Z.of_nat (seq (S s) n)) chunk))).
  { eapply Forall_impl; [|exact Hcells]. intros op (i & Hi & Hop). exists i.
    split; [lia|exact Hop]. }
  destruct (fst (render p)) as [card|] eqn:Hcard; cbn [app].
  - assert (Hthis : is_cell (Z.of_nat s) (SheetPaste card
                      (MARGIN_X + Z.of_nat s mod 3 * CARD_WIDTH_PX)
                      (MARGIN_Y + Z.of_nat s / 3 * CARD_HEIGHT_PX))).
    { exists card. split; [reflexivity|].
      apply (resize_card_some_size p); [unfold CARD_WIDTH_PX; lia
                                       |unfold CARD_HEIGHT_PX; lia|exact Hcard]. }
    split.
    + constructor.
      * exists (Z.of_nat s). split; [lia|exact Hthis].
      * eapply Forall_impl; [|exact Hlater]. intros op (i & Hi & Hop). exists i.
        split; [lia|exact Hop].
    + constructor; [|exact Hapart].
      eapply Forall_impl; [|exact Hlater]. intros op (i & Hi & Hop).
      apply (cells_apart (Z.of_nat s) i); try assumption; lia.
  - split; [|exact Hapart].
    eapply Forall_impl; [|exact Hlater]. intros op (i & Hi & Hop). exists i.
    split; [lia|exact Hop].
Qed.

(** X16: on every sheet the pasted cards are card-sized, lie inside the
    page, and no two of them overlap. *)
Theorem sheet_cards_fit_and_stay_apart (chunk : list string) :
  Forall (fun op =>
            match paste_rect op with
            | Some (x0, y0, x1, y1) =>
                0 <= x0 /\ x1 <= PAPER_WIDTH_PX /\ 0 <= y0 /\ y1 <= PAPER_HEIGHT_PX
                /\ x1 - x0 = CARD_WIDTH_PX /\ y1 - y0 = CARD_HEIGHT_PX
            | None => False
            end) (cards_on_sheet cfg files chunk)
  /\ ForallOrdPairs
       (fun a b => match paste_rect a, paste_rect b with
                   | Some ra, Some rb => boxes_disjoint ra rb
                   | _, _ => False
                   end) (cards_on_sheet cfg files chunk).
Proof.
  destruct (cells_from 0 9 chunk ltac:(lia)) as [Hcells Hapart].
  split; [|exact Hapart].
  eapply Forall_impl; [|exact Hcells]. intros op (i & Hi & card & -> & Hw & Hh).
  cbn [paste_rect]. rewrite Hw, Hh.
  unfold MARGIN_X, MARGIN_Y, CARD_WIDTH_PX, CARD_HEIGHT_PX, PAPER_WIDTH_PX, PAPER_HEIGHT_PX.
  change ((10200 - GRID_WIDTH_PX) / 2) with 600.
  change ((13200 - GRID_HEIGHT_PX) / 2) with 300.
  cbn [Z.ltb Z.compare orb]. cbn [Nat.add Z.of_nat] in Hi. div_lia.
Qed.

End Sheet.
